(** * EliasDB: the free physical slot page

    A shallow embedding of
    [devt.de/eliasdb/storage/slotting/pageview/freephysicalslotpage.go]
    and the properties of its row bookkeeping, its size cache and its
    slot search.

    Conventions.
    - Go's [uint16] and [uint32] values are integers of [Z]; every
      arithmetic operation of the source is followed by its wrap-around
      ([u16], [u32]).  Go's [int] is taken to be 64 bits wide, so that
      [int(x)] of a [uint16] or [uint32] value is the value itself.
    - A run time panic of the Go code (slice index out of range, the
      header check of the constructor) is the result [None].
    - The methods of the page mutate the page; they are state passing
      functions in the monad [M]. *)

From Stdlib Require Import ZArith Lia Bool.
From stdpp Require Import base option list.

Local Open Scope Z_scope.

(** ** Fixed width integers *)

Definition u16 (z : Z) : Z := z `mod` 65536.
Definition u32 (z : Z) : Z := z `mod` 4294967296.

(** ** The backing record *)

Module Rec.

(** Modelled from the spec: [file.Record] is not part of the sources at
    hand.  The spec describes it as a fixed-size byte buffer with typed
    reads and writes of 16 and 32 bit integers at a byte offset.  The
    buffer is a list of bytes (integers below 256), an integer of [n]
    bytes is stored most significant byte first, and an access outside
    the buffer panics as any Go slice access does. *)
Definition is_byte (b : Z) : Prop := 0 <= b < 256.

Fixpoint encode (n : nat) (v : Z) : list Z :=
  match n with
  | O => []
  | S n' => (v / 256 ^ Z.of_nat n') `mod` 256 :: encode n' v
  end.

Definition decode (bs : list Z) : Z :=
  fold_left (fun acc b => acc * 256 + b) bs 0.

Definition in_range (data : list Z) (pos : Z) (n : nat) : bool :=
  (0 <=? pos) && (pos + Z.of_nat n <=? Z.of_nat (length data)).

Definition ReadUInt (n : nat) (data : list Z) (pos : Z) : option Z :=
  if in_range data pos n
  then Some (decode (take n (drop (Z.to_nat pos) data)))
  else None.

Definition WriteUInt (n : nat) (data : list Z) (pos : Z) (v : Z)
  : option (list Z) :=
  if in_range data pos n
  then Some (list_inserts (Z.to_nat pos) (encode n v) data)
  else None.

Definition ReadUInt16 := ReadUInt 2.
Definition ReadUInt32 := ReadUInt 4.
Definition WriteUInt16 := WriteUInt 2.
Definition WriteUInt32 := WriteUInt 4.

(** [ReadInt16] reads the same two bytes as a signed value. *)
Definition ReadInt16 (data : list Z) (pos : Z) : option Z :=
  match ReadUInt16 data pos with
  | Some v => Some (if v <? 32768 then v else v - 65536)
  | None => None
  end.

End Rec.


(** ** Constants of the packages the page imports *)

(** The page is written over constants of the packages [view], [file] and
    [util], which are not part of the sources at hand.  The constants the
    spec does not fix are the fields of [Layout]; every definition and
    theorem below holds for each layout that passes [layout_ok]. *)
Class Layout := {
  (** [view.OFFSET_DATA]: the end of the header of a view page *)
  view_OFFSET_DATA : Z;
  (** [util.LOCATION_SIZE]: the width of a packed location in bytes *)
  LOCATION_SIZE : Z;
  (** [util.MAX_AVAILABLE_SIZE_DIFFERENCE] *)
  MAX_AVAILABLE_SIZE_DIFFERENCE : Z;
  (** [view.VIEW_PAGE_HEADER + view.TYPE_FREE_PHYSICAL_SLOT_PAGE] *)
  FREE_PHYSICAL_SLOT_PAGE_HEADER : Z
}.

(** Modelled from the spec: [file.SIZE_SHORT] and [util.SIZE_INFO_SIZE]
    are missing from the sources; the spec gives the row count as a 16 bit
    field and the size of a row as a 4 byte field. *)
Definition SIZE_SHORT : Z := 2.
Definition SIZE_INFO_SIZE : Z := 4.

Definition OPTIMAL_WASTE_MARGIN : Z := 128.

(** ** The page *)

(** The struct [FreePhysicalSlotPage].  [Data] stands for the embedded
    [SlotInfoPage] and its [Record]: the bytes of the wrapped record. *)
Record FreePhysicalSlotPage := mkFreePhysicalSlotPage {
  Data : list Z;
  maxSlots : Z;
  maxAcceptableWaste : Z;
  sizeCache : list Z
}.

(** A method of the page: it runs on a page and either panics or gives a
    result and the page as the method left it. *)
Definition M (A : Type) : Type :=
  FreePhysicalSlotPage -> option (A * FreePhysicalSlotPage).

Definition ret {A} (a : A) : M A := fun p => Some (a, p).

Definition bind {A B} (m : M A) (k : A -> M B) : M B :=
  fun p => match m p with
           | Some (a, p') => k a p'
           | None => None
           end.

Declare Scope page_scope.
Delimit Scope page_scope with page.
Notation "x <- m ;; k" := (bind m (fun x => k))
  (at level 100, m at next level, right associativity) : page_scope.
Notation "m ;;; k" := (bind m (fun _ => k))
  (at level 100, right associativity) : page_scope.

(** Result of one turn of a loop whose body may return from the method. *)
Inductive turn (S R : Type) : Type :=
| Next (s : S)
| Return (r : R).
Arguments Next {S R} s.
Arguments Return {S R} r.

Section Page.

Context {L : Layout}.

Local Open Scope page_scope.

Definition OFFSET_COUNT : Z := view_OFFSET_DATA.
Definition OFFSET_DATA : Z := OFFSET_COUNT + SIZE_SHORT.
Definition SLOT_INFO_SIZE : Z := LOCATION_SIZE + SIZE_INFO_SIZE.

(** *** Access to the record and to the cache *)

Definition ReadUInt16 (pos : Z) : M Z :=
  fun p => match Rec.ReadUInt16 (Data p) pos with
           | Some v => Some (v, p)
           | None => None
           end.

Definition ReadUInt32 (pos : Z) : M Z :=
  fun p => match Rec.ReadUInt32 (Data p) pos with
           | Some v => Some (v, p)
           | None => None
           end.

Definition ReadUInt (n : nat) (pos : Z) : M Z :=
  fun p => match Rec.ReadUInt n (Data p) pos with
           | Some v => Some (v, p)
           | None => None
           end.

Definition WriteUInt (n : nat) (pos v : Z) : M unit :=
  fun p => match Rec.WriteUInt n (Data p) pos v with
           | Some d => Some (tt, mkFreePhysicalSlotPage d (maxSlots p)
                                   (maxAcceptableWaste p) (sizeCache p))
           | None => None
           end.

Definition WriteUInt16 : Z -> Z -> M unit := WriteUInt 2.
Definition WriteUInt32 : Z -> Z -> M unit := WriteUInt 4.

(** [fpsp.sizeCache[i]] as a value; an index outside the slice panics. *)
Definition sizeCache_get (i : Z) : M Z :=
  fun p => match sizeCache p !! Z.to_nat i with
           | Some v => Some (v, p)
           | None => None
           end.

(** [fpsp.sizeCache[i] = v] *)
Definition sizeCache_set (i v : Z) : M unit :=
  fun p => match sizeCache p !! Z.to_nat i with
           | Some _ => Some (tt, mkFreePhysicalSlotPage (Data p) (maxSlots p)
                                   (maxAcceptableWaste p)
                                   (<[Z.to_nat i := v]> (sizeCache p)))
           | None => None
           end.

(** *** The slot info page underneath *)

(** Modelled from the spec: [util.PackLocation] and the methods
    [SetSlotInfo], [SlotInfoRecord] and [SlotInfoOffset] of [SlotInfoPage]
    are missing from the sources.  The spec describes a location as a
    packed identifier, of fixed width, of a record and a byte offset within
    that record, stored in front of the size of the row.  Offsets within a
    record are 16 bit values throughout the page, so the location is
    modelled as the record identity followed by 16 bits of offset, held in
    the first [LOCATION_SIZE] bytes of the row. *)
Definition PackLocation (recordID offset : Z) : Z :=
  recordID * 65536 + offset.

Definition LocationRecord (location : Z) : Z := location / 65536.
Definition LocationOffset (location : Z) : Z := location `mod` 65536.

Definition SetSlotInfo (slotinfoOffset recordID offset : Z) : M unit :=
  WriteUInt (Z.to_nat LOCATION_SIZE) slotinfoOffset
            (PackLocation recordID offset).

Definition SlotInfoRecord (offset : Z) : M Z :=
  l <- ReadUInt (Z.to_nat LOCATION_SIZE) offset ;; ret (LocationRecord l).

Definition SlotInfoOffset (offset : Z) : M Z :=
  l <- ReadUInt (Z.to_nat LOCATION_SIZE) offset ;; ret (LocationOffset l).

(** *** The methods of [FreePhysicalSlotPage] *)

(** [NewFreePhysicalSlotPage]: the header check panics on a wrong magic
    number, [make] panics on a negative length. *)
Definition checkFreePhysicalSlotPageMagic (record : list Z) : option bool :=
  match Rec.ReadInt16 record 0 with
  | Some magic =>
      if magic =? FREE_PHYSICAL_SLOT_PAGE_HEADER then Some true else None
  | None => None
  end.

Definition NewFreePhysicalSlotPage (record : list Z)
  : option FreePhysicalSlotPage :=
  match checkFreePhysicalSlotPageMagic record with
  | Some _ =>
      let maxSlots :=
        Z.quot (Z.of_nat (length record) - OFFSET_DATA) SLOT_INFO_SIZE in
      let maxAcceptableWaste := Z.quot (Z.of_nat (length record)) 4 in
      if maxSlots <? 0 then None
      else Some (mkFreePhysicalSlotPage record (u16 maxSlots)
                   (u32 maxAcceptableWaste)
                   (replicate (Z.to_nat maxSlots) 0))
  | None => None
  end.

Definition MaxSlots : M Z := fun p => Some (maxSlots p, p).

Definition FreeSlotCount : M Z := ReadUInt16 OFFSET_COUNT.

Definition slotinfoToOffset (slotinfo : Z) : Z :=
  u16 (OFFSET_DATA + slotinfo * SLOT_INFO_SIZE).

Definition offsetToSlotinfo (offset : Z) : Z :=
  u16 (offset - OFFSET_DATA) / SLOT_INFO_SIZE.

Definition SlotInfoLocation (slotinfo : Z) : M Z :=
  let offset := slotinfoToOffset slotinfo in
  r <- SlotInfoRecord offset ;;
  o <- SlotInfoOffset offset ;;
  ret (PackLocation r o).

Definition FreeSlotSize (offset : Z) : M Z :=
  let slotinfo := offsetToSlotinfo offset in
  c <- sizeCache_get slotinfo ;;
  (if c =? 0
   then v <- ReadUInt32 (u16 (offset + LOCATION_SIZE)) ;;
        sizeCache_set slotinfo v
   else ret tt) ;;;
  sizeCache_get slotinfo.

Definition SetFreeSlotSize (offset size : Z) : M unit :=
  let slotinfo := offsetToSlotinfo offset in
  sizeCache_set slotinfo size ;;;
  WriteUInt32 (u16 (offset + LOCATION_SIZE)) size.

Definition AllocateSlotInfo (slotinfo : Z) : M Z :=
  let offset := slotinfoToOffset slotinfo in
  SetFreeSlotSize offset 1 ;;;
  SetSlotInfo offset 1 1 ;;;
  c <- FreeSlotCount ;;
  WriteUInt16 OFFSET_COUNT (u16 (c + 1)) ;;;
  ret offset.

Definition ReleaseSlotInfo (slotinfo : Z) : M Z :=
  let offset := slotinfoToOffset slotinfo in
  SetFreeSlotSize offset 0 ;;;
  SetSlotInfo offset 0 0 ;;;
  c <- FreeSlotCount ;;
  WriteUInt16 OFFSET_COUNT (u16 (c - 1)) ;;;
  ret offset.

Definition isAllocatedSlot (slotinfo : Z) : M bool :=
  let offset := slotinfoToOffset slotinfo in
  s <- FreeSlotSize offset ;; ret (negb (s =? 0)).

(** The loop [for i = 0; i < fpsp.maxSlots; i++] of [FirstFreeSlotInfo],
    entered with [i] and with [n] rows left below [maxSlots]. *)
Fixpoint FirstFreeSlotInfo_loop (n : nat) (i : Z) : M Z :=
  match n with
  | O => ret (-1)
  | S n' =>
      a <- isAllocatedSlot i ;;
      if negb a then ret i else FirstFreeSlotInfo_loop n' (u16 (i + 1))
  end.

Definition FirstFreeSlotInfo : M Z :=
  fun p => FirstFreeSlotInfo_loop (Z.to_nat (maxSlots p)) 0 p.

(** The body of the loop of [FindSlot] on row [i]; the state of the loop
    is [(bestSlot, bestSlotWaste, maxSize)]. *)
Definition FindSlot_body (minSize i : Z) (st : Z * Z * Z)
  : M (turn (Z * Z * Z) Z) :=
  let '(bestSlot, bestSlotWaste, maxSize) := st in
  let slotinfoOffset := slotinfoToOffset i in
  slotinfoSize <- FreeSlotSize slotinfoOffset ;;
  let maxSize := if slotinfoSize >? maxSize then slotinfoSize else maxSize in
  let waste := u32 (slotinfoSize - minSize) in
  if waste >=? 0 then
    if waste <? OPTIMAL_WASTE_MARGIN then ret (Return i)
    else if bestSlotWaste >? waste then ret (Next (i, waste, maxSize))
    else ret (Next (bestSlot, bestSlotWaste, maxSize))
  else ret (Next (bestSlot, bestSlotWaste, maxSize)).

(** The loop [for i = 0; i < fpsp.maxSlots; i++] of [FindSlot], entered
    with [i] and with [n] rows left below [maxSlots]; a turn of the body
    either goes on with the next row or returns from the method. *)
Fixpoint FindSlot_loop (n : nat) (minSize i : Z) (st : Z * Z * Z)
  : M (turn (Z * Z * Z) Z) :=
  match n with
  | O => ret (Next st)
  | S n' =>
      t <- FindSlot_body minSize i st ;;
      match t with
      | Return r => ret (Return r)
      | Next st' => FindSlot_loop n' minSize (u16 (i + 1)) st'
      end
  end.

Definition FindSlot (minSize : Z) : M Z :=
  fun p =>
    let bestSlot := -1 in
    let bestSlotWaste := u32 (maxAcceptableWaste p + 1) in
    let maxSize := 0 in
    (t <- FindSlot_loop (Z.to_nat (maxSlots p)) minSize 0
            (bestSlot, bestSlotWaste, maxSize) ;;
     match t with
     | Return r => ret r
     | Next (bestSlot, bestSlotWaste, maxSize) =>
         fun p' =>
           if negb (bestSlot =? -1)
              && ((bestSlotWaste <? maxAcceptableWaste p')
                  && (bestSlotWaste <? MAX_AVAILABLE_SIZE_DIFFERENCE))
           then Some (bestSlot, p')
           else Some (- maxSize, p')
     end) p.

(** *** Views of a page *)

(** The size field of row [i] as the record holds it. *)
Definition diskSize (p : FreePhysicalSlotPage) (i : Z) : option Z :=
  Rec.ReadUInt32 (Data p) (u16 (slotinfoToOffset i + LOCATION_SIZE)).

(** The location field of row [i] as the record holds it. *)
Definition diskLocation (p : FreePhysicalSlotPage) (i : Z) : option Z :=
  Rec.ReadUInt (Z.to_nat LOCATION_SIZE) (Data p) (slotinfoToOffset i).

(** The row count of the header. *)
Definition diskCount (p : FreePhysicalSlotPage) : option Z :=
  Rec.ReadUInt16 (Data p) OFFSET_COUNT.

Definition rowInUse (p : FreePhysicalSlotPage) (i : Z) : bool :=
  match diskSize p i with
  | Some s => negb (s =? 0)
  | None => false
  end.

(** Number of rows below [n] whose size field is not zero. *)
Fixpoint usedBelow (p : FreePhysicalSlotPage) (n : nat) : Z :=
  match n with
  | O => 0
  | S k => usedBelow p k + (if rowInUse p (Z.of_nat k) then 1 else 0)
  end.

Definition usedRows (p : FreePhysicalSlotPage) : Z :=
  usedBelow p (Z.to_nat (maxSlots p)).

(** Largest size field of the rows below [n]. *)
Fixpoint maxSizeBelow (p : FreePhysicalSlotPage) (n : nat) : Z :=
  match n with
  | O => 0
  | S k => Z.max (maxSizeBelow p k) (default 0 (diskSize p (Z.of_nat k)))
  end.

Definition maxRowSize (p : FreePhysicalSlotPage) : Z :=
  maxSizeBelow p (Z.to_nat (maxSlots p)).

(** *** Well formed pages *)

(** What Go's typing of the constants asks of a layout, and the room the
    location needs. *)
Definition layout_ok : bool :=
  (0 <=? view_OFFSET_DATA) && (OFFSET_DATA <=? 65535)
  && (3 <=? LOCATION_SIZE) && (SLOT_INFO_SIZE <=? 65535)
  && (0 <=? MAX_AVAILABLE_SIZE_DIFFERENCE)
  && (MAX_AVAILABLE_SIZE_DIFFERENCE <? 4294967296).

Definition is_byteb (b : Z) : bool := (0 <=? b) && (b <? 256).

(** An entry of the cache is zero or the size field of its row. *)
Definition cache_entry_ok (p : FreePhysicalSlotPage) (i : nat) (c : Z)
  : bool :=
  (c =? 0)
  || match diskSize p (Z.of_nat i) with
     | Some s => s =? c
     | None => false
     end.

Fixpoint cache_ok_from (p : FreePhysicalSlotPage) (i : nat) (cs : list Z)
  : bool :=
  match cs with
  | [] => true
  | c :: cs' => cache_entry_ok p i c && cache_ok_from p (S i) cs'
  end.

(** A page as [NewFreePhysicalSlotPage] makes it from a record that
    offsets of 16 bits can address, whatever its methods did to it since:
    the fields are those the constructor computed, and the cache holds a
    zero or the size of the row at each index. *)
Definition wf (p : FreePhysicalSlotPage) : bool :=
  layout_ok
  && forallb is_byteb (Data p)
  && (OFFSET_DATA <=? Z.of_nat (length (Data p)))
  && (Z.of_nat (length (Data p)) <=? 65536)
  && (maxSlots p =? (Z.of_nat (length (Data p)) - OFFSET_DATA)
                     / SLOT_INFO_SIZE)
  && (maxAcceptableWaste p =? Z.of_nat (length (Data p)) / 4)
  && (Z.of_nat (length (sizeCache p)) =? maxSlots p)
  && cache_ok_from p 0 (sizeCache p).

(** The invariant of the data model: the row count of the header is the
    number of rows in use. *)
Definition count_ok (p : FreePhysicalSlotPage) : bool :=
  match diskCount p with
  | Some c => c =? usedRows p
  | None => false
  end.

(** *** Sequences of operations *)

(** The exported methods of the page as operations. *)
Inductive op : Type :=
| OpMaxSlots
| OpFreeSlotCount
| OpSlotInfoLocation (slotinfo : Z)
| OpFreeSlotSize (offset : Z)
| OpSetFreeSlotSize (offset size : Z)
| OpAllocateSlotInfo (slotinfo : Z)
| OpReleaseSlotInfo (slotinfo : Z)
| OpFirstFreeSlotInfo
| OpFindSlot (minSize : Z).

(** The page after an operation, its result dropped. *)
Definition after {A} (m : M A) (p : FreePhysicalSlotPage)
  : option FreePhysicalSlotPage :=
  match m p with
  | Some (_, p') => Some p'
  | None => None
  end.

Definition run_op (o : op) : FreePhysicalSlotPage
                             -> option FreePhysicalSlotPage :=
  match o with
  | OpMaxSlots => after MaxSlots
  | OpFreeSlotCount => after FreeSlotCount
  | OpSlotInfoLocation i => after (SlotInfoLocation i)
  | OpFreeSlotSize offset => after (FreeSlotSize offset)
  | OpSetFreeSlotSize offset size => after (SetFreeSlotSize offset size)
  | OpAllocateSlotInfo i => after (AllocateSlotInfo i)
  | OpReleaseSlotInfo i => after (ReleaseSlotInfo i)
  | OpFirstFreeSlotInfo => after FirstFreeSlotInfo
  | OpFindSlot minSize => after (FindSlot minSize)
  end.

Fixpoint run_ops (os : list op) (p : FreePhysicalSlotPage)
  : option FreePhysicalSlotPage :=
  match os with
  | [] => Some p
  | o :: os' =>
      match run_op o p with
      | Some p' => run_ops os' p'
      | None => None
      end
  end.

(** An offset is the offset of a row below [m]. *)
Definition is_row_offset (m offset : Z) : bool :=
  (offsetToSlotinfo offset <? m)
  && (slotinfoToOffset (offsetToSlotinfo offset) =? offset).

(** The arguments of an operation are of the types of the source and name
    rows of a page of [m] rows. *)
Definition op_valid (m : Z) (o : op) : bool :=
  match o with
  | OpSlotInfoLocation i => (0 <=? i) && (i <? m)
  | OpFreeSlotSize offset => is_row_offset m offset
  | OpSetFreeSlotSize offset size =>
      is_row_offset m offset && (0 <=? size) && (size <? 4294967296)
  | OpAllocateSlotInfo i => (0 <=? i) && (i <? m)
  | OpReleaseSlotInfo i => (0 <=? i) && (i <? m)
  | _ => true
  end.

(** The row an operation writes the size and the location of. *)
Definition op_row (o : op) : option Z :=
  match o with
  | OpSetFreeSlotSize offset _ => Some (offsetToSlotinfo offset)
  | OpAllocateSlotInfo i => Some i
  | OpReleaseSlotInfo i => Some i
  | _ => None
  end.

Definition writes_any (o : op) : bool :=
  match op_row o with
  | Some _ => true
  | None => false
  end.

Definition writes_row (i : Z) (o : op) : bool :=
  match op_row o with
  | Some j => j =? i
  | None => false
  end.

Definition is_claim_release (o : op) : bool :=
  match o with
  | OpAllocateSlotInfo _ | OpReleaseSlotInfo _ => true
  | _ => false
  end.

(** The documented preconditions: a row is claimed when it is vacant and
    released when it is in use. *)
Definition claim_release_pre (p : FreePhysicalSlotPage) (o : op) : bool :=
  op_valid (maxSlots p) o
  && match o with
     | OpAllocateSlotInfo i => negb (rowInUse p i)
     | OpReleaseSlotInfo i => rowInUse p i
     | _ => true
     end.

(** The preconditions above, and a size is only set to a value that
    leaves a vacant row vacant and a row in use in use. *)
Definition vacancy_pre (p : FreePhysicalSlotPage) (o : op) : bool :=
  claim_release_pre p o
  && match o with
     | OpSetFreeSlotSize offset size =>
         Bool.eqb (rowInUse p (offsetToSlotinfo offset)) (negb (size =? 0))
     | _ => true
     end.

(** A precondition holds in front of each operation of a sequence. *)
Fixpoint ops_pre (pre : FreePhysicalSlotPage -> op -> bool)
  (p : FreePhysicalSlotPage) (os : list op) : bool :=
  match os with
  | [] => true
  | o :: os' =>
      pre p o
      && match run_op o p with
         | Some p' => ops_pre pre p' os'
         | None => true
         end
  end.

End Page.

(** ** A layout and pages to run the methods on *)

(** A layout with a location of 8 bytes behind a header of 18 bytes, and
    a record of 4096 bytes that carries the header of the page and zeros
    elsewhere. *)
Definition sample_layout : Layout := {|
  view_OFFSET_DATA := 18;
  LOCATION_SIZE := 8;
  MAX_AVAILABLE_SIZE_DIFFERENCE := 65534;
  FREE_PHYSICAL_SLOT_PAGE_HEADER := 6548
|}.

Definition sample_record : list Z :=
  Rec.encode 2 6548 ++ replicate 4094 0.

Section Samples.

Local Existing Instance sample_layout.

(** The page the constructor makes of [sample_record]: 339 vacant rows. *)
Definition blank_page : FreePhysicalSlotPage :=
  mkFreePhysicalSlotPage sample_record 339 1024 (replicate 339 0).

(** A page after a sequence of operations on the blank page. *)
Definition page_after (os : list op) : FreePhysicalSlotPage :=
  default blank_page (run_ops os blank_page).

(** Rows 0 to 3 of sizes 0, 500, 50 and 200. *)
Definition scenario_page : FreePhysicalSlotPage :=
  page_after [OpAllocateSlotInfo 1; OpSetFreeSlotSize (slotinfoToOffset 1) 500;
              OpAllocateSlotInfo 2; OpSetFreeSlotSize (slotinfoToOffset 2) 50;
              OpAllocateSlotInfo 3; OpSetFreeSlotSize (slotinfoToOffset 3) 200].

(** Row 0 vacant and row 1 of the largest size a row can have. *)
Definition large_slot_page : FreePhysicalSlotPage :=
  page_after [OpAllocateSlotInfo 1;
              OpSetFreeSlotSize (slotinfoToOffset 1) 4294967295].

(** The blank page after a release of its vacant row 0: the row count has
    wrapped around. *)
Definition drifted_page : FreePhysicalSlotPage :=
  page_after [OpReleaseSlotInfo 0].

End Samples.

(** ** Notions for the statements *)

Section Notions.

Context {L : Layout}.

Definition cache_coherent (p : FreePhysicalSlotPage) : Prop :=
  forall (i : nat) (c : Z),
    sizeCache p !! i = Some c -> c = 0 \/ diskSize p (Z.of_nat i) = Some c.

(** The content of [wf] as propositions. *)
Record WF (p : FreePhysicalSlotPage) : Prop := {
  wf_layout : layout_ok = true;
  wf_bytes : Forall Rec.is_byte (Data p);
  wf_len_lo : OFFSET_DATA <= Z.of_nat (length (Data p));
  wf_len_hi : Z.of_nat (length (Data p)) <= 65536;
  wf_maxSlots :
    maxSlots p = (Z.of_nat (length (Data p)) - OFFSET_DATA) / SLOT_INFO_SIZE;
  wf_waste : maxAcceptableWaste p = Z.of_nat (length (Data p)) / 4;
  wf_cache_len : Z.of_nat (length (sizeCache p)) = maxSlots p;
  wf_cache : cache_coherent p
}.

(** Byte offset of row [i] without the wrap-around. *)
Definition rowPos (i : Z) : Z := OFFSET_DATA + i * SLOT_INFO_SIZE.

(** Pages that differ in one part. *)
Definition with_data (p : FreePhysicalSlotPage) (d : list Z) :=
  mkFreePhysicalSlotPage d (maxSlots p) (maxAcceptableWaste p) (sizeCache p).

Definition with_cache (p : FreePhysicalSlotPage) (cs : list Z) :=
  mkFreePhysicalSlotPage (Data p) (maxSlots p) (maxAcceptableWaste p) cs.

(** [keeps p p' i sz loc cnt]: page [p'] has the fields and the record of
    [p], but for the size of row [i] when [sz] is [false], the location of
    row [i] when [loc] is [false], and the row count when [cnt] is
    [false]. *)
Definition keeps (p p' : FreePhysicalSlotPage) (i : Z) (sz loc cnt : bool)
  : Prop :=
  maxSlots p' = maxSlots p
  /\ maxAcceptableWaste p' = maxAcceptableWaste p
  /\ length (Data p') = length (Data p)
  /\ (forall j, 0 <= j < maxSlots p -> sz = true \/ j <> i ->
                diskSize p' j = diskSize p j)
  /\ (forall j, 0 <= j < maxSlots p -> loc = true \/ j <> i ->
                diskLocation p' j = diskLocation p j)
  /\ (cnt = true -> diskCount p' = diskCount p).

(** [cache_filled p p']: page [p'] is page [p] with some entries of the
    cache, zero before, now read from the record. *)
Definition cache_filled (p p' : FreePhysicalSlotPage) : Prop :=
  Data p' = Data p
  /\ maxSlots p' = maxSlots p
  /\ maxAcceptableWaste p' = maxAcceptableWaste p
  /\ length (sizeCache p') = length (sizeCache p)
  /\ forall (k : nat) (c' : Z),
       sizeCache p' !! k = Some c' ->
       sizeCache p !! k = Some c'
       \/ (sizeCache p !! k = Some 0 /\ diskSize p (Z.of_nat k) = Some c').

(** *** The outcomes of [FindSlot] *)

(** The waste of a row as [FindSlot] computes it. *)
Definition wasteOf (minSize s : Z) : Z := u32 (s - minSize).

(** Row [r] is the first row whose waste is below the optimal margin. *)
Definition first_fit (p : FreePhysicalSlotPage) (minSize r : Z) : Prop :=
  0 <= r < maxSlots p
  /\ (exists s, diskSize p r = Some s
                /\ wasteOf minSize s < OPTIMAL_WASTE_MARGIN)
  /\ forall j s, 0 <= j < r -> diskSize p j = Some s ->
                 OPTIMAL_WASTE_MARGIN <= wasteOf minSize s.

(** No row is below the optimal margin, and row [r] has the least waste,
    which is acceptable. *)
Definition best_fit (p : FreePhysicalSlotPage) (minSize r : Z) : Prop :=
  0 <= r < maxSlots p
  /\ exists sr,
      diskSize p r = Some sr
      /\ wasteOf minSize sr < maxAcceptableWaste p
      /\ wasteOf minSize sr < MAX_AVAILABLE_SIZE_DIFFERENCE
      /\ forall j s, 0 <= j < maxSlots p -> diskSize p j = Some s ->
                     OPTIMAL_WASTE_MARGIN <= wasteOf minSize s
                     /\ wasteOf minSize sr <= wasteOf minSize s.

(** No row has a waste [FindSlot] accepts. *)
Definition no_fit (p : FreePhysicalSlotPage) (minSize : Z) : Prop :=
  forall j s, 0 <= j < maxSlots p -> diskSize p j = Some s ->
    OPTIMAL_WASTE_MARGIN <= wasteOf minSize s
    /\ ~ (wasteOf minSize s < maxAcceptableWaste p
          /\ wasteOf minSize s < MAX_AVAILABLE_SIZE_DIFFERENCE).

(** The state of the loop of [FindSlot] in front of row [i]. *)
Definition FindSlot_inv (p : FreePhysicalSlotPage) (minSize i : Z)
  (st : Z * Z * Z) : Prop :=
  let '(bestSlot, bestSlotWaste, maxSize) := st in
  maxSize = maxSizeBelow p (Z.to_nat i)
  /\ (forall j s, 0 <= j < i -> diskSize p j = Some s ->
                  OPTIMAL_WASTE_MARGIN <= wasteOf minSize s
                  /\ bestSlotWaste <= wasteOf minSize s)
  /\ ((bestSlot = -1 /\ bestSlotWaste = maxAcceptableWaste p + 1)
      \/ (0 <= bestSlot < i
          /\ bestSlotWaste <= maxAcceptableWaste p
          /\ exists s, diskSize p bestSlot = Some s
                       /\ bestSlotWaste = wasteOf minSize s)).

(** *** Properties the spec words, as it words them *)

(** [FindSlot] returns no row smaller than the request. *)
Definition FindSlot_fits (p : FreePhysicalSlotPage) (minSize : Z) : Prop :=
  forall r p',
    FindSlot minSize p = Some (r, p') -> 0 <= r ->
    exists s, diskSize p r = Some s /\ minSize <= s.

(** Row [j] fits the request with a waste below the acceptable waste and
    below [MAX_AVAILABLE_SIZE_DIFFERENCE]. *)
Definition acceptable_row (p : FreePhysicalSlotPage) (minSize j : Z) : Prop :=
  exists s, diskSize p j = Some s /\ minSize <= s
            /\ s - minSize < maxAcceptableWaste p
            /\ s - minSize < MAX_AVAILABLE_SIZE_DIFFERENCE.

(** Without an acceptable row [FindSlot] returns a negative value, the
    largest size of a row in magnitude. *)
Definition FindSlot_exhausted (p : FreePhysicalSlotPage) (minSize : Z)
  : Prop :=
  (forall j, 0 <= j < maxSlots p -> ~ acceptable_row p minSize j) ->
  exists r p',
    FindSlot minSize p = Some (r, p') /\ r < 0 /\ - r = maxRowSize p.

(** Some row fits the request within the optimal margin. *)
Definition optimal_row (p : FreePhysicalSlotPage) (minSize j : Z) : Prop :=
  exists s, diskSize p j = Some s /\ minSize <= s
            /\ s - minSize < OPTIMAL_WASTE_MARGIN.

(** With a row within the optimal margin [FindSlot] returns such a row. *)
Definition FindSlot_first_fit (p : FreePhysicalSlotPage) (minSize : Z)
  : Prop :=
  (exists j, 0 <= j < maxSlots p /\ optimal_row p minSize j) ->
  exists r p',
    FindSlot minSize p = Some (r, p')
    /\ 0 <= r < maxSlots p /\ optimal_row p minSize r.

(** The row count stays the number of rows in use along a sequence of
    operations that keeps the precondition [pre]. *)
Definition count_kept (pre : FreePhysicalSlotPage -> op -> bool)
  (p : FreePhysicalSlotPage) (os : list op) : Prop :=
  wf p = true -> count_ok p = true -> ops_pre pre p os = true ->
  exists p', run_ops os p = Some p' /\ count_ok p' = true.

End Notions.

(** ** Notions for further properties *)

Section MoreNotions.

Context {L : Layout}.

(** Two pages over the same record, with the same fields. *)
Definition same_record (p q : FreePhysicalSlotPage) : Prop :=
  Data p = Data q
  /\ maxSlots p = maxSlots q
  /\ maxAcceptableWaste p = maxAcceptableWaste q.

(** Row [r] is a best fit and every row in front of it wastes more. *)
Definition best_fit_first (p : FreePhysicalSlotPage) (minSize r : Z) : Prop :=
  best_fit p minSize r
  /\ forall j s sr, 0 <= j < r ->
       diskSize p j = Some s -> diskSize p r = Some sr ->
       wasteOf minSize sr < wasteOf minSize s.

(** The state of the loop of [FindSlot] in front of row [i], with the
    rows in front of the best slot. *)
Definition FindSlot_inv_first (p : FreePhysicalSlotPage) (minSize i : Z)
  (st : Z * Z * Z) : Prop :=
  FindSlot_inv p minSize i st
  /\ forall j s, 0 <= j < fst (fst st) -> diskSize p j = Some s ->
                snd (fst st) < wasteOf minSize s.

(** Every row of the page is vacant. *)
Definition all_vacant (p : FreePhysicalSlotPage) : Prop :=
  forall j, 0 <= j < maxSlots p -> diskSize p j = Some 0.

(** A location is the least packed value that is not zero. *)
Definition least_location (l : Z) : Prop :=
  l <> 0
  /\ forall recordID offset,
       0 <= recordID -> 0 <= offset < 65536 ->
       PackLocation recordID offset <> 0 ->
       l <= PackLocation recordID offset.

(** The claim of a vacant row as the spec words it: the row count goes up
    by one, the size of the row becomes 1 and its location the least
    packed value that is not zero. *)
Definition AllocateSlotInfo_claimed (p : FreePhysicalSlotPage) (i : Z)
  : Prop :=
  diskSize p i = Some 0 ->
  exists c p',
    FreeSlotCount p = Some (c, p)
    /\ AllocateSlotInfo i p = Some (slotinfoToOffset i, p')
    /\ FreeSlotCount p' = Some (c + 1, p')
    /\ diskSize p' i = Some 1
    /\ exists l, diskLocation p' i = Some l /\ least_location l.

End MoreNotions.

Section MoreSamples.

Local Existing Instance sample_layout.

(** The page of the scenario with a cache that holds no size yet. *)
Definition cold_scenario_page : FreePhysicalSlotPage :=
  with_cache scenario_page (replicate 339 0).

(** A record of zeros, without the header of the page. *)
Definition zero_record : list Z := replicate 4096 0.


End MoreSamples.
(** ** Facts on the backing record *)

Section RecordFacts.

Import Rec.

Lemma encode_length n v : length (encode n v) = n.
Proof. induction n as [|n IH]; simpl; [done | by rewrite IH]. Qed.

Lemma encode_is_byte n v : Forall is_byte (encode n v).
Proof.
  induction n as [|n IH]; simpl; constructor; [|done].
  unfold is_byte. apply Z.mod_pos_bound. lia.
Qed.

Lemma decode_fold bs acc :
  fold_left (fun a b => a * 256 + b) bs acc
  = acc * 256 ^ Z.of_nat (length bs) + decode bs.
Proof.
  unfold decode. revert acc.
  induction bs as [|b bs IH]; intros acc.
  - simpl. lia.
  - cbn [fold_left length]. rewrite IH, (IH (0 * 256 + b)).
    rewrite Nat2Z.inj_succ, Z.pow_succ_r by lia. ring.
Qed.

Lemma decode_cons b bs :
  decode (b :: bs) = b * 256 ^ Z.of_nat (length bs) + decode bs.
Proof.
  unfold decode at 1. cbn [fold_left]. rewrite decode_fold. ring.
Qed.

Lemma decode_encode n v : decode (encode n v) = v `mod` 256 ^ Z.of_nat n.
Proof.
  induction n as [|n IH].
  - simpl. by rewrite Z.mod_1_r.
  - cbn [encode]. rewrite decode_cons, encode_length, IH.
    rewrite Nat2Z.inj_succ, Z.pow_succ_r by lia.
    rewrite (Z.mul_comm 256), Z.rem_mul_r by lia. ring.
Qed.

Lemma decode_range bs :
  Forall is_byte bs -> 0 <= decode bs < 256 ^ Z.of_nat (length bs).
Proof.
  induction 1 as [|b bs Hb _ IH].
  - unfold decode. simpl. lia.
  - rewrite decode_cons. cbn [length].
    rewrite Nat2Z.inj_succ, Z.pow_succ_r by lia.
    unfold is_byte in Hb. nia.
Qed.

Lemma in_range_spec data pos n :
  in_range data pos n = true
  <-> 0 <= pos /\ pos + Z.of_nat n <= Z.of_nat (length data).
Proof. unfold in_range. rewrite andb_true_iff. lia. Qed.

Lemma ReadUInt_Some n data pos :
  0 <= pos -> pos + Z.of_nat n <= Z.of_nat (length data) ->
  ReadUInt n data pos = Some (decode (take n (drop (Z.to_nat pos) data))).
Proof.
  intros. unfold ReadUInt.
  by rewrite (proj2 (in_range_spec data pos n)).
Qed.

Lemma ReadUInt_inv n data pos v :
  ReadUInt n data pos = Some v ->
  0 <= pos /\ pos + Z.of_nat n <= Z.of_nat (length data).
Proof.
  unfold ReadUInt. destruct (in_range data pos n) eqn:E; [|done].
  intros _. by apply in_range_spec.
Qed.

Lemma WriteUInt_Some n data pos v :
  0 <= pos -> pos + Z.of_nat n <= Z.of_nat (length data) ->
  WriteUInt n data pos v
  = Some (list_inserts (Z.to_nat pos) (encode n v) data).
Proof.
  intros. unfold WriteUInt.
  by rewrite (proj2 (in_range_spec data pos n)).
Qed.

Lemma WriteUInt_inv n data pos v data' :
  WriteUInt n data pos v = Some data' ->
  (0 <= pos /\ pos + Z.of_nat n <= Z.of_nat (length data))
  /\ data' = list_inserts (Z.to_nat pos) (encode n v) data.
Proof.
  unfold WriteUInt. destruct (in_range data pos n) eqn:E; [|done].
  intros [= <-]. split; [by apply in_range_spec | done].
Qed.

Lemma WriteUInt_length n data pos v data' :
  WriteUInt n data pos v = Some data' -> length data' = length data.
Proof.
  intros [_ ->]%WriteUInt_inv. apply length_inserts.
Qed.

Lemma WriteUInt_is_byte n data pos v data' :
  Forall is_byte data ->
  WriteUInt n data pos v = Some data' -> Forall is_byte data'.
Proof.
  intros Hd [_ ->]%WriteUInt_inv.
  apply Forall_inserts; [done | apply encode_is_byte].
Qed.

(** A read of the bytes just written gives the value back, cut to the
    width of the field. *)
Lemma Read_Write_same n data pos v data' :
  WriteUInt n data pos v = Some data' ->
  ReadUInt n data' pos = Some (v `mod` 256 ^ Z.of_nat n).
Proof.
  intros [[H0 Hlen] ->]%WriteUInt_inv.
  rewrite ReadUInt_Some by (rewrite ?length_inserts; lia).
  f_equal. rewrite <- decode_encode. f_equal.
  apply list_eq. intros i. rewrite lookup_take.
  case_decide as Hi.
  - rewrite lookup_drop, list_lookup_inserts
      by (rewrite ?encode_length; lia).
    f_equal. lia.
  - symmetry. apply lookup_ge_None_2. rewrite encode_length. lia.
Qed.

(** A read of bytes that do not overlap the bytes written is not
    affected by the write. *)
Lemma Read_Write_other m n data pos pos' v data' :
  WriteUInt n data pos v = Some data' ->
  pos' + Z.of_nat m <= pos \/ pos + Z.of_nat n <= pos' ->
  ReadUInt m data' pos' = ReadUInt m data pos'.
Proof.
  intros [[H0 Hlen] ->]%WriteUInt_inv Hdis.
  unfold ReadUInt, in_range. rewrite length_inserts.
  destruct (0 <=? pos') eqn:E0; [|done].
  destruct (pos' + Z.of_nat m <=? Z.of_nat (length data)) eqn:E1; [|done].
  cbn [andb]. do 2 f_equal.
  apply list_eq. intros i. rewrite !lookup_take.
  case_decide as Hi; [|done].
  rewrite !lookup_drop.
  destruct Hdis.
  - apply list_lookup_inserts_lt. lia.
  - apply list_lookup_inserts_ge. rewrite encode_length. lia.
Qed.

Lemma ReadUInt_range n data pos v :
  Forall is_byte data ->
  ReadUInt n data pos = Some v -> 0 <= v < 256 ^ Z.of_nat n.
Proof.
  intros Hd Hr. pose proof (ReadUInt_inv _ _ _ _ Hr) as [H0 Hlen].
  rewrite ReadUInt_Some in Hr by lia. injection Hr as <-.
  set (bs := take n (drop (Z.to_nat pos) data)).
  assert (length bs = n) as Hl.
  { unfold bs. rewrite length_take, length_drop. lia. }
  rewrite <- Hl. apply decode_range.
  unfold bs. by apply Forall_take, Forall_drop.
Qed.

End RecordFacts.

(** ** Facts on the page *)

Section PageFacts.

Context {L : Layout}.

Local Open Scope page_scope.

(** *** Well formed pages *)

Lemma u16_small z : 0 <= z < 65536 -> u16 z = z.
Proof. intros. unfold u16. by apply Z.mod_small. Qed.

Lemma u32_small z : 0 <= z < 4294967296 -> u32 z = z.
Proof. intros. unfold u32. by apply Z.mod_small. Qed.

Lemma u32_range z : 0 <= u32 z < 4294967296.
Proof. unfold u32. apply Z.mod_pos_bound. lia. Qed.

Lemma layout_ok_spec :
  layout_ok = true ->
  0 <= view_OFFSET_DATA /\ OFFSET_DATA <= 65535 /\ 3 <= LOCATION_SIZE
  /\ SLOT_INFO_SIZE <= 65535
  /\ 0 <= MAX_AVAILABLE_SIZE_DIFFERENCE < 4294967296.
Proof. unfold layout_ok. rewrite !andb_true_iff. lia. Qed.

Lemma is_byteb_spec b : is_byteb b = true <-> Rec.is_byte b.
Proof. unfold is_byteb, Rec.is_byte. rewrite andb_true_iff. lia. Qed.

Lemma forallb_is_byteb data :
  forallb is_byteb data = true <-> Forall Rec.is_byte data.
Proof.
  rewrite forallb_forall, Forall_forall.
  split; intros H b Hb.
  - apply is_byteb_spec, H. by apply list_elem_of_In.
  - apply is_byteb_spec, H. by apply list_elem_of_In.
Qed.


Lemma cache_entry_ok_spec p i c :
  cache_entry_ok p i c = true
  <-> c = 0 \/ diskSize p (Z.of_nat i) = Some c.
Proof.
  unfold cache_entry_ok. rewrite orb_true_iff, Z.eqb_eq.
  destruct (diskSize p (Z.of_nat i)) as [s|].
  - rewrite Z.eqb_eq. split; (intros [?|?]; [by left | right; congruence]).
  - split; (intros [?|?]; [by left | done]).
Qed.

Lemma cache_ok_from_spec p k cs :
  cache_ok_from p k cs = true
  <-> forall (i : nat) (c : Z),
        cs !! i = Some c -> cache_entry_ok p (k + i) c = true.
Proof.
  revert k. induction cs as [|c0 cs IH]; intros k; cbn [cache_ok_from].
  - split; [intros _ i c Hi; by destruct i | done].
  - rewrite andb_true_iff, IH. split.
    + intros [H0 Hs] [|i] c Hi; simplify_eq/=.
      * by rewrite Nat.add_0_r.
      * rewrite <- Nat.add_succ_comm. by apply Hs.
    + intros H. split.
      * specialize (H O c0 eq_refl). by rewrite Nat.add_0_r in H.
      * intros i c Hi. rewrite Nat.add_succ_comm. by apply (H (S i)).
Qed.


Lemma wf_WF p : wf p = true <-> WF p.
Proof.
  unfold wf. rewrite !andb_true_iff, forallb_is_byteb, cache_ok_from_spec.
  rewrite !Z.leb_le, !Z.eqb_eq.
  split.
  - intros (((((((?&?)&?)&?)&?)&?)&?)&Hc). split; try done.
    intros i c Hi. by apply cache_entry_ok_spec, (Hc i c).
  - intros []. repeat split; try done.
    intros i c Hi. by apply cache_entry_ok_spec, wf_cache0.
Qed.

(** *** The place of the rows *)


Lemma rows_fit p i :
  WF p -> 0 <= i < maxSlots p ->
  0 <= rowPos i
  /\ rowPos i + SLOT_INFO_SIZE <= Z.of_nat (length (Data p))
  /\ rowPos i + SLOT_INFO_SIZE <= 65536.
Proof.
  intros [] Hi. apply layout_ok_spec in wf_layout0.
  unfold rowPos, OFFSET_DATA, OFFSET_COUNT, SLOT_INFO_SIZE, SIZE_SHORT,
    SIZE_INFO_SIZE in *.
  set (sis := LOCATION_SIZE + 4) in *.
  set (len := Z.of_nat (length (Data p))) in *.
  assert (0 < sis) by (unfold sis; lia).
  assert (maxSlots p * sis <= len - (view_OFFSET_DATA + 2)).
  { rewrite wf_maxSlots0, Z.mul_comm. apply Z.mul_div_le. lia. }
  assert ((i + 1) * sis <= maxSlots p * sis) by nia.
  nia.
Qed.

Lemma maxSlots_range p : WF p -> 0 <= maxSlots p < 65535.
Proof.
  intros []. apply layout_ok_spec in wf_layout0.
  unfold OFFSET_DATA, OFFSET_COUNT, SLOT_INFO_SIZE, SIZE_SHORT,
    SIZE_INFO_SIZE in *.
  rewrite wf_maxSlots0. split.
  - apply Z.div_pos; lia.
  - apply Z.div_lt_upper_bound; lia.
Qed.

Lemma slotinfoToOffset_row p i :
  WF p -> 0 <= i < maxSlots p -> slotinfoToOffset i = rowPos i.
Proof.
  intros Hwf Hi. destruct (rows_fit p i Hwf Hi) as (?&?&?).
  pose proof (layout_ok_spec (wf_layout p Hwf)).
  unfold slotinfoToOffset. fold (rowPos i). apply u16_small.
  unfold SLOT_INFO_SIZE, SIZE_INFO_SIZE in *. lia.
Qed.

Lemma sizePos_row p i :
  WF p -> 0 <= i < maxSlots p ->
  u16 (slotinfoToOffset i + LOCATION_SIZE) = rowPos i + LOCATION_SIZE.
Proof.
  intros Hwf Hi. destruct (rows_fit p i Hwf Hi) as (?&?&?).
  pose proof (layout_ok_spec (wf_layout p Hwf)).
  rewrite (slotinfoToOffset_row p) by done. apply u16_small.
  unfold SLOT_INFO_SIZE, SIZE_INFO_SIZE in *. lia.
Qed.

Lemma offsetToSlotinfo_row p i :
  WF p -> 0 <= i < maxSlots p -> offsetToSlotinfo (slotinfoToOffset i) = i.
Proof.
  intros Hwf Hi. destruct (rows_fit p i Hwf Hi) as (?&?&?).
  pose proof (layout_ok_spec (wf_layout p Hwf)).
  rewrite (slotinfoToOffset_row p) by done.
  unfold offsetToSlotinfo, rowPos in *.
  replace (OFFSET_DATA + i * SLOT_INFO_SIZE - OFFSET_DATA)
    with (i * SLOT_INFO_SIZE) by ring.
  unfold OFFSET_DATA, OFFSET_COUNT, SIZE_SHORT, SLOT_INFO_SIZE,
    SIZE_INFO_SIZE in *.
  assert (0 <= i * (LOCATION_SIZE + 4)) by nia.
  rewrite u16_small by lia. apply Z.div_mul. lia.
Qed.

Lemma rowPos_apart i j :
  layout_ok = true -> i < j -> rowPos i + SLOT_INFO_SIZE <= rowPos j.
Proof.
  intros H%layout_ok_spec Hij. unfold rowPos, SLOT_INFO_SIZE, SIZE_INFO_SIZE.
  nia.
Qed.

Lemma diskSize_row p i :
  WF p -> 0 <= i < maxSlots p ->
  diskSize p i = Rec.ReadUInt32 (Data p) (rowPos i + LOCATION_SIZE).
Proof. intros. unfold diskSize. by rewrite (sizePos_row p). Qed.

Lemma diskLocation_row p i :
  WF p -> 0 <= i < maxSlots p ->
  diskLocation p i
  = Rec.ReadUInt (Z.to_nat LOCATION_SIZE) (Data p) (rowPos i).
Proof. intros. unfold diskLocation. by rewrite (slotinfoToOffset_row p). Qed.

Lemma diskSize_Some p i :
  WF p -> 0 <= i < maxSlots p ->
  exists s, diskSize p i = Some s /\ 0 <= s < 4294967296.
Proof.
  intros Hwf Hi. destruct (rows_fit p i Hwf Hi) as (?&?&?).
  pose proof (layout_ok_spec (wf_layout p Hwf)).
  rewrite (diskSize_row p) by done. unfold Rec.ReadUInt32.
  unfold SLOT_INFO_SIZE, SIZE_INFO_SIZE in *.
  rewrite ReadUInt_Some by lia. eexists. split; [done|].
  eapply (ReadUInt_range 4); [apply (wf_bytes p Hwf)|].
  apply ReadUInt_Some; lia.
Qed.

Lemma diskCount_Some p :
  WF p -> exists c, diskCount p = Some c /\ 0 <= c < 65536.
Proof.
  intros Hwf. pose proof (layout_ok_spec (wf_layout p Hwf)).
  pose proof (wf_len_lo p Hwf).
  unfold diskCount, Rec.ReadUInt16, OFFSET_DATA, OFFSET_COUNT, SIZE_SHORT in *.
  rewrite ReadUInt_Some by lia. eexists. split; [done|].
  eapply (ReadUInt_range 2); [apply (wf_bytes p Hwf)|].
  apply ReadUInt_Some; lia.
Qed.

(** *** Pages that differ in one part *)

Lemma diskSize_data p p' i :
  Data p' = Data p -> diskSize p' i = diskSize p i.
Proof. unfold diskSize. by intros ->. Qed.

Lemma diskLocation_data p p' i :
  Data p' = Data p -> diskLocation p' i = diskLocation p i.
Proof. unfold diskLocation. by intros ->. Qed.

Lemma diskCount_data p p' : Data p' = Data p -> diskCount p' = diskCount p.
Proof. unfold diskCount. by intros ->. Qed.

Lemma WF_frame p p' :
  WF p ->
  Forall Rec.is_byte (Data p') ->
  length (Data p') = length (Data p) ->
  maxSlots p' = maxSlots p ->
  maxAcceptableWaste p' = maxAcceptableWaste p ->
  length (sizeCache p') = length (sizeCache p) ->
  cache_coherent p' ->
  WF p'.
Proof.
  intros [] Hb Hl Hm Ha Hc Hco.
  split; rewrite ?Hl, ?Hm, ?Ha, ?Hc; done.
Qed.

Lemma cache_index p (k : nat) c :
  WF p -> sizeCache p !! k = Some c -> 0 <= Z.of_nat k < maxSlots p.
Proof.
  intros Hwf Hk%lookup_lt_Some. rewrite <- (wf_cache_len p Hwf). lia.
Qed.

Lemma cache_lookup p i :
  WF p -> 0 <= i < maxSlots p ->
  exists c, sizeCache p !! Z.to_nat i = Some c.
Proof.
  intros Hwf Hi. apply lookup_lt_is_Some_2.
  pose proof (wf_cache_len p Hwf). lia.
Qed.

(** *** The three fields a method writes *)

(** The write of a size field: it changes the size of its row and nothing
    else on the record. *)
Lemma write_size p i s d :
  WF p -> 0 <= i < maxSlots p ->
  Rec.WriteUInt32 (Data p) (rowPos i + LOCATION_SIZE) s = Some d ->
  let p' := with_data p d in
  diskSize p' i = Some (u32 s)
  /\ (forall j, 0 <= j < maxSlots p -> j <> i -> diskSize p' j = diskSize p j)
  /\ (forall j, 0 <= j < maxSlots p -> diskLocation p' j = diskLocation p j)
  /\ diskCount p' = diskCount p.
Proof.
  intros Hwf Hi Hw p'.
  pose proof (layout_ok_spec (wf_layout p Hwf)) as HL.
  destruct (rows_fit p i Hwf Hi) as (Hi0 & Hi1 & Hi2).
  unfold diskSize, diskLocation, diskCount, Rec.ReadUInt32, Rec.ReadUInt16.
  unfold Rec.WriteUInt32 in Hw. repeat split.
  - rewrite (sizePos_row p) by done. cbn [Data p' with_data].
    by rewrite (Read_Write_same _ _ _ _ _ Hw).
  - intros j Hj Hne. rewrite (sizePos_row p) by done. cbn [Data p' with_data].
    apply (Read_Write_other _ _ _ _ _ _ _ Hw).
    unfold SLOT_INFO_SIZE, SIZE_INFO_SIZE in *.
    destruct (Z.lt_total i j) as [Hlt|[?|Hlt]]; [|done|];
      pose proof (rowPos_apart _ _ (wf_layout p Hwf) Hlt);
      unfold SLOT_INFO_SIZE, SIZE_INFO_SIZE in *; lia.
  - intros j Hj. rewrite (slotinfoToOffset_row p) by done.
    cbn [Data p' with_data].
    apply (Read_Write_other _ _ _ _ _ _ _ Hw).
    unfold SLOT_INFO_SIZE, SIZE_INFO_SIZE in *.
    destruct (Z.lt_total i j) as [Hlt|[->|Hlt]]; [|lia|];
      pose proof (rowPos_apart _ _ (wf_layout p Hwf) Hlt);
      unfold SLOT_INFO_SIZE, SIZE_INFO_SIZE in *; lia.
  - cbn [Data p' with_data].
    apply (Read_Write_other _ _ _ _ _ _ _ Hw).
    unfold rowPos, OFFSET_DATA, SIZE_SHORT, SLOT_INFO_SIZE, SIZE_INFO_SIZE in *.
    left. nia.
Qed.

(** The write of a location field. *)
Lemma write_location p i v d :
  WF p -> 0 <= i < maxSlots p ->
  Rec.WriteUInt (Z.to_nat LOCATION_SIZE) (Data p) (rowPos i) v = Some d ->
  let p' := with_data p d in
  diskLocation p' i = Some (v `mod` 256 ^ LOCATION_SIZE)
  /\ (forall j, 0 <= j < maxSlots p -> j <> i ->
                diskLocation p' j = diskLocation p j)
  /\ (forall j, 0 <= j < maxSlots p -> diskSize p' j = diskSize p j)
  /\ diskCount p' = diskCount p.
Proof.
  intros Hwf Hi Hw p'.
  pose proof (layout_ok_spec (wf_layout p Hwf)) as HL.
  destruct (rows_fit p i Hwf Hi) as (Hi0 & Hi1 & Hi2).
  assert (Z.of_nat (Z.to_nat LOCATION_SIZE) = LOCATION_SIZE) as Hn by lia.
  unfold diskSize, diskLocation, diskCount, Rec.ReadUInt32, Rec.ReadUInt16.
  repeat split.
  - rewrite (slotinfoToOffset_row p) by done. cbn [Data p' with_data].
    by rewrite (Read_Write_same _ _ _ _ _ Hw), Hn.
  - intros j Hj Hne. rewrite (slotinfoToOffset_row p) by done.
    cbn [Data p' with_data].
    apply (Read_Write_other _ _ _ _ _ _ _ Hw).
    unfold SLOT_INFO_SIZE, SIZE_INFO_SIZE in *.
    destruct (Z.lt_total i j) as [Hlt|[?|Hlt]]; [|done|];
      pose proof (rowPos_apart _ _ (wf_layout p Hwf) Hlt);
      unfold SLOT_INFO_SIZE, SIZE_INFO_SIZE in *; lia.
  - intros j Hj. rewrite (sizePos_row p) by done.
    cbn [Data p' with_data].
    apply (Read_Write_other _ _ _ _ _ _ _ Hw).
    unfold SLOT_INFO_SIZE, SIZE_INFO_SIZE in *.
    destruct (Z.lt_total i j) as [Hlt|[->|Hlt]]; [|lia|];
      pose proof (rowPos_apart _ _ (wf_layout p Hwf) Hlt);
      unfold SLOT_INFO_SIZE, SIZE_INFO_SIZE in *; lia.
  - cbn [Data p' with_data].
    apply (Read_Write_other _ _ _ _ _ _ _ Hw).
    unfold rowPos, OFFSET_DATA, SIZE_SHORT, SLOT_INFO_SIZE, SIZE_INFO_SIZE in *.
    left. nia.
Qed.

(** The write of the row count. *)
Lemma write_count p v d :
  WF p ->
  Rec.WriteUInt16 (Data p) OFFSET_COUNT v = Some d ->
  let p' := with_data p d in
  diskCount p' = Some (u16 v)
  /\ (forall j, 0 <= j < maxSlots p -> diskSize p' j = diskSize p j)
  /\ (forall j, 0 <= j < maxSlots p -> diskLocation p' j = diskLocation p j).
Proof.
  intros Hwf Hw p'.
  pose proof (layout_ok_spec (wf_layout p Hwf)) as HL.
  unfold diskSize, diskLocation, diskCount, Rec.ReadUInt32, Rec.ReadUInt16.
  unfold Rec.WriteUInt16 in Hw. repeat split.
  - cbn [Data p' with_data]. by rewrite (Read_Write_same _ _ _ _ _ Hw).
  - intros j Hj. destruct (rows_fit p j Hwf Hj) as (Hj0 & Hj1 & Hj2).
    rewrite (sizePos_row p) by done. cbn [Data p' with_data].
    apply (Read_Write_other _ _ _ _ _ _ _ Hw).
    unfold rowPos, OFFSET_DATA, SIZE_SHORT, SLOT_INFO_SIZE, SIZE_INFO_SIZE in *.
    right. nia.
  - intros j Hj. destruct (rows_fit p j Hwf Hj) as (Hj0 & Hj1 & Hj2).
    rewrite (slotinfoToOffset_row p) by done. cbn [Data p' with_data].
    apply (Read_Write_other _ _ _ _ _ _ _ Hw).
    unfold rowPos, OFFSET_DATA, SIZE_SHORT, SLOT_INFO_SIZE, SIZE_INFO_SIZE in *.
    right. nia.
Qed.

(** *** What a method leaves as it was *)


Lemma keeps_refl p i sz loc cnt : keeps p p i sz loc cnt.
Proof. by repeat split. Qed.

Lemma keeps_trans p p' p'' i sz loc cnt sz' loc' cnt' :
  keeps p p' i sz loc cnt -> keeps p' p'' i sz' loc' cnt' ->
  keeps p p'' i (sz && sz') (loc && loc') (cnt && cnt').
Proof.
  intros (Hm & Ha & Hl & Hs & Ho & Hc) (Hm' & Ha' & Hl' & Hs' & Ho' & Hc').
  rewrite Hm in Hs', Ho'.
  repeat split; try congruence.
  - intros j Hj Hor. rewrite Hs', Hs; try done.
    + rewrite andb_true_iff in Hor. tauto.
    + rewrite andb_true_iff in Hor. tauto.
  - intros j Hj Hor. rewrite Ho', Ho; try done.
    + rewrite andb_true_iff in Hor. tauto.
    + rewrite andb_true_iff in Hor. tauto.
  - intros [-> ->]%andb_true_iff. rewrite Hc', Hc; done.
Qed.

Lemma keeps_weaken p p' i sz loc cnt sz' loc' cnt' :
  keeps p p' i sz loc cnt ->
  (sz' = true -> sz = true) -> (loc' = true -> loc = true) ->
  (cnt' = true -> cnt = true) ->
  keeps p p' i sz' loc' cnt'.
Proof.
  intros (Hm & Ha & Hl & Hs & Ho & Hc) H1 H2 H3.
  repeat split; try done.
  - intros j Hj Hor. apply Hs; tauto.
  - intros j Hj Hor. apply Ho; tauto.
  - intros Hk. by apply Hc, H3.
Qed.

(** A change of the row a frame speaks of, when nothing of the row
    changed. *)
Lemma keeps_all p p' i j : keeps p p' i true true true ->
  keeps p p' j true true true.
Proof.
  intros (Hm & Ha & Hl & Hs & Ho & Hc).
  repeat split; try done.
  - intros k Hk _. apply Hs; auto.
  - intros k Hk _. apply Ho; auto.
Qed.

(** *** The methods on a well formed page *)

Lemma bind_Some {A B} (m : M A) (k : A -> M B) p a p1 :
  m p = Some (a, p1) -> bind m k p = k a p1.
Proof. unfold bind. by intros ->. Qed.

Lemma sizeCache_get_Some p i c :
  sizeCache p !! Z.to_nat i = Some c -> sizeCache_get i p = Some (c, p).
Proof. unfold sizeCache_get. by intros ->. Qed.

Lemma sizeCache_set_Some p i c v :
  sizeCache p !! Z.to_nat i = Some c ->
  sizeCache_set i v p
  = Some (tt, with_cache p (<[Z.to_nat i := v]> (sizeCache p))).
Proof. unfold sizeCache_set. by intros ->. Qed.

Lemma WF_fill p i s :
  WF p -> 0 <= i < maxSlots p -> diskSize p i = Some s ->
  WF (with_cache p (<[Z.to_nat i := s]> (sizeCache p))).
Proof.
  intros Hwf Hi Hs.
  apply (WF_frame p); try done.
  - apply (wf_bytes p Hwf).
  - cbn. by rewrite length_insert.
  - intros k c. cbn [sizeCache with_cache].
    rewrite (diskSize_data p) by done.
    destruct (decide (Z.to_nat i = k)) as [<-|Hne].
    + rewrite list_lookup_insert_eq.
      * intros [= <-]. right. by rewrite Z2Nat.id by lia.
      * pose proof (wf_cache_len p Hwf). lia.
    + rewrite list_lookup_insert_ne by done. apply (wf_cache p Hwf).
Qed.

(** [FreeSlotSize] returns the size field of the row, and leaves the
    record alone; the cache holds the size afterwards. *)
Lemma FreeSlotSize_spec p i :
  WF p -> 0 <= i < maxSlots p ->
  exists s,
    diskSize p i = Some s /\ 0 <= s < 4294967296
    /\ FreeSlotSize (slotinfoToOffset i) p
       = Some (s, with_cache p (<[Z.to_nat i := s]> (sizeCache p))).
Proof.
  intros Hwf Hi.
  destruct (diskSize_Some p i Hwf Hi) as (s & Hs & Hr).
  destruct (cache_lookup p i Hwf Hi) as (c & Hc).
  exists s. split; [done|]. split; [done|].
  unfold FreeSlotSize. rewrite (offsetToSlotinfo_row p) by done.
  rewrite (bind_Some _ _ _ _ _ (sizeCache_get_Some p i c Hc)).
  destruct (c =? 0) eqn:E.
  - assert (ReadUInt32 (u16 (slotinfoToOffset i + LOCATION_SIZE)) p
            = Some (s, p)) as Hread.
    { unfold ReadUInt32. unfold diskSize in Hs. by rewrite Hs. }
    unfold bind at 1. unfold bind at 1. rewrite Hread.
    rewrite (sizeCache_set_Some p i c s Hc).
    apply sizeCache_get_Some. cbn [sizeCache with_cache].
    apply list_lookup_insert_eq.
    pose proof (wf_cache_len p Hwf). lia.
  - apply Z.eqb_neq in E.
    destruct (wf_cache p Hwf (Z.to_nat i) c Hc) as [?|Hd]; [done|].
    rewrite Z2Nat.id in Hd by lia. assert (c = s) as -> by congruence.
    unfold bind at 1, ret.
    rewrite (sizeCache_get_Some p i s Hc).
    rewrite list_insert_id by done. by destruct p.
Qed.

Lemma FreeSlotSize_keeps p i s p' :
  WF p -> 0 <= i < maxSlots p ->
  FreeSlotSize (slotinfoToOffset i) p = Some (s, p') ->
  WF p' /\ Data p' = Data p /\ diskSize p i = Some s
  /\ keeps p p' i true true true
  /\ sizeCache p' = <[Z.to_nat i := s]> (sizeCache p).
Proof.
  intros Hwf Hi Hrun.
  destruct (FreeSlotSize_spec p i Hwf Hi) as (s' & Hs & _ & Hrun').
  rewrite Hrun' in Hrun. injection Hrun as <- <-.
  split; [by apply WF_fill|]. repeat split; try done.
Qed.

(** [SetFreeSlotSize] sets the size field of the row and the entry of the
    cache. *)
Lemma SetFreeSlotSize_spec p i s :
  WF p -> 0 <= i < maxSlots p -> 0 <= s < 4294967296 ->
  exists p',
    SetFreeSlotSize (slotinfoToOffset i) s p = Some (tt, p')
    /\ WF p' /\ diskSize p' i = Some s
    /\ keeps p p' i false true true
    /\ sizeCache p' = <[Z.to_nat i := s]> (sizeCache p).
Proof.
  intros Hwf Hi Hs.
  pose proof (layout_ok_spec (wf_layout p Hwf)) as HL.
  destruct (rows_fit p i Hwf Hi) as (Hi0 & Hi1 & Hi2).
  destruct (cache_lookup p i Hwf Hi) as (c & Hc).
  set (p1 := with_cache p (<[Z.to_nat i := s]> (sizeCache p))).
  assert (exists d, Rec.WriteUInt32 (Data p) (rowPos i + LOCATION_SIZE) s
                    = Some d) as (d & Hd).
  { eexists. apply WriteUInt_Some;
      unfold SLOT_INFO_SIZE, SIZE_INFO_SIZE in *; lia. }
  destruct (write_size p i s d Hwf Hi Hd) as (Hsz & Hoth & Hloc & Hcnt).
  rewrite u32_small in Hsz by done.
  exists (with_data p1 d).
  assert (SetFreeSlotSize (slotinfoToOffset i) s p = Some (tt, with_data p1 d))
    as Hrun.
  { unfold SetFreeSlotSize. rewrite (offsetToSlotinfo_row p) by done.
    rewrite (bind_Some _ _ _ _ _ (sizeCache_set_Some p i c s Hc)).
    rewrite (sizePos_row p) by done.
    unfold WriteUInt32, WriteUInt. cbn [Data with_cache].
    unfold Rec.WriteUInt32 in Hd. by rewrite Hd. }
  split; [done|].
  assert (length d = length (Data p)) as Hlen
    by apply (WriteUInt_length _ _ _ _ _ Hd).
  split; [|split; [|split]]; [| done | | done].
  - apply (WF_frame p); try done.
    + apply (WriteUInt_is_byte _ _ _ _ _ (wf_bytes p Hwf) Hd).
    + cbn. by rewrite length_insert.
    + intros k c'. cbn [sizeCache with_data with_cache p1].
      intros Hk.
      assert (0 <= Z.of_nat k < maxSlots p) as Hkr.
      { apply lookup_lt_Some in Hk. rewrite length_insert in Hk.
        pose proof (wf_cache_len p Hwf). lia. }
      destruct (decide (Z.to_nat i = k)) as [<-|Hne].
      * rewrite list_lookup_insert_eq in Hk
          by (pose proof (wf_cache_len p Hwf); lia).
        injection Hk as <-. right. by rewrite Z2Nat.id by lia.
      * rewrite list_lookup_insert_ne in Hk by done.
        destruct (wf_cache p Hwf k c' Hk) as [?|Hdk]; [by left|right].
        rewrite <- Hdk. apply (Hoth (Z.of_nat k)); [done|lia].
  - repeat split; try done.
    + intros j Hj [?|?]; [done|]. by apply Hoth.
    + intros j Hj _. by apply Hloc.
Qed.

(** [SetSlotInfo] sets the location field of the row. *)
Lemma SetSlotInfo_spec p i r o :
  WF p -> 0 <= i < maxSlots p ->
  exists p',
    SetSlotInfo (slotinfoToOffset i) r o p = Some (tt, p')
    /\ WF p'
    /\ diskLocation p' i = Some (PackLocation r o `mod` 256 ^ LOCATION_SIZE)
    /\ keeps p p' i true false true
    /\ sizeCache p' = sizeCache p.
Proof.
  intros Hwf Hi.
  pose proof (layout_ok_spec (wf_layout p Hwf)) as HL.
  destruct (rows_fit p i Hwf Hi) as (Hi0 & Hi1 & Hi2).
  assert (exists d, Rec.WriteUInt (Z.to_nat LOCATION_SIZE) (Data p) (rowPos i)
                      (PackLocation r o) = Some d) as (d & Hd).
  { eexists. apply WriteUInt_Some;
      unfold SLOT_INFO_SIZE, SIZE_INFO_SIZE in *; lia. }
  destruct (write_location p i _ d Hwf Hi Hd) as (Hl & Hoth & Hsz & Hcnt).
  exists (with_data p d).
  assert (length d = length (Data p)) as Hlen
    by apply (WriteUInt_length _ _ _ _ _ Hd).
  split; [|split; [|split; [|split]]]; [| | done | | done].
  - unfold SetSlotInfo. rewrite (slotinfoToOffset_row p) by done.
    unfold WriteUInt. by rewrite Hd.
  - apply (WF_frame p); try done.
    + apply (WriteUInt_is_byte _ _ _ _ _ (wf_bytes p Hwf) Hd).
    + intros k c Hk. cbn [sizeCache with_data] in Hk.
      destruct (wf_cache p Hwf k c Hk) as [?|Hdk]; [by left|right].
      rewrite <- Hdk. apply Hsz. by apply (cache_index p k c).
  - repeat split; try done.
    + intros j Hj _. by apply Hsz.
    + intros j Hj [?|?]; [done|]. by apply Hoth.
Qed.

(** The write of the row count by [AllocateSlotInfo] and
    [ReleaseSlotInfo]. *)
Lemma write_count_spec p v :
  WF p ->
  exists p',
    WriteUInt16 OFFSET_COUNT v p = Some (tt, p')
    /\ WF p' /\ diskCount p' = Some (u16 v)
    /\ keeps p p' 0 true true false
    /\ sizeCache p' = sizeCache p.
Proof.
  intros Hwf.
  pose proof (layout_ok_spec (wf_layout p Hwf)) as HL.
  pose proof (wf_len_lo p Hwf) as Hlo.
  assert (exists d, Rec.WriteUInt16 (Data p) OFFSET_COUNT v = Some d)
    as (d & Hd).
  { eexists. apply WriteUInt_Some;
      unfold OFFSET_DATA, OFFSET_COUNT, SIZE_SHORT in *; lia. }
  destruct (write_count p v d Hwf Hd) as (Hc & Hsz & Hloc).
  exists (with_data p d).
  assert (length d = length (Data p)) as Hlen
    by apply (WriteUInt_length _ _ _ _ _ Hd).
  split; [|split; [|split; [|split]]]; [| | done | | done].
  - unfold WriteUInt16, WriteUInt. unfold Rec.WriteUInt16 in Hd.
    by rewrite Hd.
  - apply (WF_frame p); try done.
    + apply (WriteUInt_is_byte _ _ _ _ _ (wf_bytes p Hwf) Hd).
    + intros k c Hk. cbn [sizeCache with_data] in Hk.
      destruct (wf_cache p Hwf k c Hk) as [?|Hdk]; [by left|right].
      rewrite <- Hdk. apply Hsz. by apply (cache_index p k c).
  - repeat split; try done.
    + intros j Hj _. by apply Hsz.
    + intros j Hj _. by apply Hloc.
Qed.

Lemma FreeSlotCount_spec p :
  WF p ->
  exists c, diskCount p = Some c /\ 0 <= c < 65536
            /\ FreeSlotCount p = Some (c, p).
Proof.
  intros Hwf. destruct (diskCount_Some p Hwf) as (c & Hc & Hr).
  exists c. split; [done|]. split; [done|].
  unfold FreeSlotCount, ReadUInt16. unfold diskCount in Hc. by rewrite Hc.
Qed.

(** *** The constructor *)

(** [NewFreePhysicalSlotPage] makes a well formed page of a record that
    holds the row count and that offsets of 16 bits can address; the cache
    of the new page is empty. *)
Lemma NewFreePhysicalSlotPage_wf record p :
  layout_ok = true -> Forall Rec.is_byte record ->
  OFFSET_DATA <= Z.of_nat (length record) <= 65536 ->
  NewFreePhysicalSlotPage record = Some p ->
  wf p = true /\ Data p = record
  /\ forall (k : nat) (c : Z), sizeCache p !! k = Some c -> c = 0.
Proof.
  intros HL Hb Hlen Hnew. pose proof (layout_ok_spec HL) as HL'.
  unfold NewFreePhysicalSlotPage in Hnew.
  destruct (checkFreePhysicalSlotPageMagic record); [|done].
  assert (0 < SLOT_INFO_SIZE) as Hsis
    by (unfold SLOT_INFO_SIZE, SIZE_INFO_SIZE; lia).
  rewrite Z.quot_div_nonneg in Hnew by lia.
  rewrite Z.quot_div_nonneg in Hnew by lia.
  set (m := (Z.of_nat (length record) - OFFSET_DATA) / SLOT_INFO_SIZE) in *.
  assert (0 <= m < 65536) as Hm.
  { split; [apply Z.div_pos; lia|].
    apply Z.div_lt_upper_bound; [lia|].
    unfold OFFSET_DATA, OFFSET_COUNT, SIZE_SHORT in *. nia. }
  assert (0 <= Z.of_nat (length record) / 4 < 4294967296) as Ha.
  { split; [apply Z.div_pos; lia|]. apply Z.div_lt_upper_bound; lia. }
  destruct (m <? 0) eqn:E; [apply Z.ltb_lt in E; lia|].
  injection Hnew as <-. cbn [Data sizeCache].
  split; [|split; [done|]].
  - apply wf_WF. split; cbn [Data maxSlots maxAcceptableWaste sizeCache];
      try done; try lia.
    + by apply u16_small.
    + by apply u32_small.
    + rewrite length_replicate, u16_small by done. lia.
    + intros k c [-> _]%lookup_replicate. by left.
  - intros k c [-> _]%lookup_replicate. done.
Qed.

(** *** Reads that fill the cache *)

Lemma cache_filled_refl p : cache_filled p p.
Proof. repeat split; try done. intros k c' Hk. by left. Qed.

Lemma cache_filled_trans p p' p'' :
  cache_filled p p' -> cache_filled p' p'' -> cache_filled p p''.
Proof.
  intros (Hd & Hm & Ha & Hl & Hc) (Hd' & Hm' & Ha' & Hl' & Hc').
  repeat split; try congruence.
  intros k c'' Hk.
  destruct (Hc' k c'' Hk) as [Hsame|[Hz Hdisk]].
  - by apply Hc.
  - rewrite (diskSize_data p p') in Hdisk by done.
    destruct (Hc k 0 Hz) as [?|[? _]]; right; done.
Qed.

Lemma cache_filled_WF p p' : WF p -> cache_filled p p' -> WF p'.
Proof.
  intros Hwf (Hd & Hm & Ha & Hl & Hc).
  apply (WF_frame p); try done.
  - rewrite Hd. apply (wf_bytes p Hwf).
  - by rewrite Hd.
  - intros k c' Hk. rewrite (diskSize_data p p') by done.
    destruct (Hc k c' Hk) as [Hsame|[_ Hdisk]]; [|by right].
    by apply (wf_cache p Hwf).
Qed.

Lemma cache_filled_keeps p p' i :
  cache_filled p p' -> keeps p p' i true true true.
Proof.
  intros (Hd & Hm & Ha & Hl & Hc). repeat split; try done.
  - by rewrite Hd.
  - intros j _ _. by apply diskSize_data.
  - intros j _ _. by apply diskLocation_data.
  - intros _. by apply diskCount_data.
Qed.

Lemma FreeSlotSize_filled p i :
  WF p -> 0 <= i < maxSlots p ->
  exists s p',
    FreeSlotSize (slotinfoToOffset i) p = Some (s, p')
    /\ diskSize p i = Some s /\ 0 <= s < 4294967296
    /\ cache_filled p p' /\ WF p'
    /\ sizeCache p' !! Z.to_nat i = Some s.
Proof.
  intros Hwf Hi.
  destruct (FreeSlotSize_spec p i Hwf Hi) as (s & Hs & Hr & Hrun).
  exists s, (with_cache p (<[Z.to_nat i := s]> (sizeCache p))).
  assert (Z.to_nat i < length (sizeCache p))%nat as Hlt
    by (pose proof (wf_cache_len p Hwf); lia).
  assert (cache_filled p (with_cache p (<[Z.to_nat i := s]> (sizeCache p))))
    as Hf.
  { repeat split; try done.
    - cbn. by rewrite length_insert.
    - intros k c'. cbn [sizeCache with_cache].
      destruct (decide (Z.to_nat i = k)) as [<-|Hne].
      + rewrite list_lookup_insert_eq by done. intros [= <-].
        destruct (cache_lookup p i Hwf Hi) as (c & Hc).
        destruct (wf_cache p Hwf _ c Hc) as [->|Hd].
        * right. by rewrite Z2Nat.id by lia.
        * left. rewrite Z2Nat.id in Hd by lia. congruence.
      + rewrite list_lookup_insert_ne by done. by left. }
  split_and!; try done; try lia.
  - by apply (cache_filled_WF p).
  - cbn [sizeCache with_cache]. by apply list_lookup_insert_eq.
Qed.

(** *** Claim and release of a row *)

(** The steps [AllocateSlotInfo] and [ReleaseSlotInfo] share. *)
Lemma mark_row_spec p i s r o delta :
  WF p -> 0 <= i < maxSlots p -> 0 <= s < 4294967296 ->
  let offset := slotinfoToOffset i in
  exists c p',
    diskCount p = Some c /\ 0 <= c < 65536
    /\ (SetFreeSlotSize offset s ;;;
        SetSlotInfo offset r o ;;;
        c <- FreeSlotCount ;;
        WriteUInt16 OFFSET_COUNT (u16 (c + delta)) ;;;
        ret offset) p = Some (offset, p')
    /\ WF p'
    /\ diskSize p' i = Some s
    /\ diskLocation p' i = Some (PackLocation r o `mod` 256 ^ LOCATION_SIZE)
    /\ diskCount p' = Some (u16 (c + delta))
    /\ keeps p p' i false false false
    /\ sizeCache p' = <[Z.to_nat i := s]> (sizeCache p).
Proof.
  intros Hwf Hi Hs offset.
  destruct (SetFreeSlotSize_spec p i s Hwf Hi Hs)
    as (p1 & Hrun1 & Hwf1 & Hsz1 & Hk1 & Hc1).
  assert (maxSlots p1 = maxSlots p) as Hm1 by apply Hk1.
  assert (0 <= i < maxSlots p1) as Hi1 by lia.
  destruct (SetSlotInfo_spec p1 i r o Hwf1 Hi1)
    as (p2 & Hrun2 & Hwf2 & Hl2 & Hk2 & Hc2).
  destruct (FreeSlotCount_spec p2 Hwf2) as (c & Hc & Hcr & Hrun3).
  destruct (write_count_spec p2 (u16 (c + delta)) Hwf2)
    as (p3 & Hrun4 & Hwf3 & Hcnt3 & Hk3 & Hc3).
  pose proof (keeps_trans _ _ _ _ _ _ _ _ _ _ Hk1 Hk2) as Hk12.
  cbn [andb] in Hk12.
  assert (keeps p2 p3 i true true false) as Hk3'.
  { destruct Hk3 as (?&?&?&Hs3&Hl3&?). repeat split; try done.
    - intros j Hj _. apply Hs3; auto.
    - intros j Hj _. apply Hl3; auto. }
  pose proof (keeps_trans _ _ _ _ _ _ _ _ _ _ Hk12 Hk3') as Hk13.
  cbn [andb] in Hk13.
  assert (maxSlots p2 = maxSlots p) as Hm2 by apply Hk12.
  exists c, p3.
  assert (diskCount p = Some c) as Hc0.
  { destruct Hk12 as (_&_&_&_&_&Hcc). by rewrite <- Hcc. }
  split; [done|]. split; [done|]. split.
  { fold offset in Hrun1, Hrun2.
    rewrite (bind_Some _ _ _ _ _ Hrun1), (bind_Some _ _ _ _ _ Hrun2),
      (bind_Some _ _ _ _ _ Hrun3), (bind_Some _ _ _ _ _ Hrun4).
    done. }
  split; [done|]. split.
  { destruct Hk3' as (_&_&_&Hs3&_&_). rewrite Hs3 by (auto; lia).
    destruct Hk2 as (_&_&_&Hs2&_&_). rewrite Hs2 by (auto; lia). done. }
  split.
  { destruct Hk3' as (_&_&_&_&Hl3&_). rewrite Hl3 by (auto; lia). done. }
  split.
  { rewrite Hcnt3. f_equal. unfold u16. apply Z.mod_mod. lia. }
  split; [done|]. congruence.
Qed.

Lemma AllocateSlotInfo_spec p i :
  WF p -> 0 <= i < maxSlots p ->
  exists c p',
    diskCount p = Some c /\ 0 <= c < 65536
    /\ AllocateSlotInfo i p = Some (slotinfoToOffset i, p')
    /\ WF p'
    /\ diskSize p' i = Some 1
    /\ diskLocation p' i = Some (PackLocation 1 1 `mod` 256 ^ LOCATION_SIZE)
    /\ diskCount p' = Some (u16 (c + 1))
    /\ keeps p p' i false false false
    /\ sizeCache p' = <[Z.to_nat i := 1]> (sizeCache p).
Proof.
  intros Hwf Hi. apply (mark_row_spec p i 1 1 1 1 Hwf Hi). lia.
Qed.

Lemma ReleaseSlotInfo_spec p i :
  WF p -> 0 <= i < maxSlots p ->
  exists c p',
    diskCount p = Some c /\ 0 <= c < 65536
    /\ ReleaseSlotInfo i p = Some (slotinfoToOffset i, p')
    /\ WF p'
    /\ diskSize p' i = Some 0
    /\ diskLocation p' i = Some (PackLocation 0 0 `mod` 256 ^ LOCATION_SIZE)
    /\ diskCount p' = Some (u16 (c - 1))
    /\ keeps p p' i false false false
    /\ sizeCache p' = <[Z.to_nat i := 0]> (sizeCache p).
Proof.
  intros Hwf Hi. apply (mark_row_spec p i 0 0 0 (-1) Hwf Hi). lia.
Qed.

(** *** The search for a vacant row *)

Lemma isAllocatedSlot_spec p i :
  WF p -> 0 <= i < maxSlots p ->
  exists s p',
    isAllocatedSlot i p = Some (negb (s =? 0), p')
    /\ diskSize p i = Some s /\ cache_filled p p'.
Proof.
  intros Hwf Hi.
  destruct (FreeSlotSize_filled p i Hwf Hi) as (s & p' & Hrun & Hs & _ & Hf & _).
  exists s, p'. split; [|done].
  unfold isAllocatedSlot. by rewrite (bind_Some _ _ _ _ _ Hrun).
Qed.

Lemma FirstFreeSlotInfo_loop_spec p0 :
  WF p0 ->
  forall (n : nat) (i : Z) (p : FreePhysicalSlotPage),
    cache_filled p0 p -> 0 <= i -> i + Z.of_nat n = maxSlots p0 ->
    exists r p',
      FirstFreeSlotInfo_loop n i p = Some (r, p')
      /\ cache_filled p0 p'
      /\ ((i <= r < maxSlots p0 /\ diskSize p0 r = Some 0
           /\ forall j, i <= j < r -> rowInUse p0 j = true)
          \/ (r = -1 /\ forall j, i <= j < maxSlots p0 ->
                                   rowInUse p0 j = true)).
Proof.
  intros Hwf0 n. induction n as [|n IH]; intros i p Hf Hi Hn.
  - exists (-1), p. split; [done|]. split; [done|]. right.
    split; [done|]. intros j Hj. lia.
  - pose proof (cache_filled_WF _ _ Hwf0 Hf) as Hwf.
    destruct Hf as (Hd & Hm & Hrest).
    assert (0 <= i < maxSlots p) as Hi' by lia.
    destruct (isAllocatedSlot_spec p i Hwf Hi') as (s & p1 & Hrun & Hs & Hf1).
    rewrite (diskSize_data p0 p) in Hs by done.
    assert (cache_filled p0 p1) as Hf01.
    { apply (cache_filled_trans p0 p p1); [|done]. by split. }
    cbn [FirstFreeSlotInfo_loop]. rewrite (bind_Some _ _ _ _ _ Hrun).
    rewrite negb_involutive.
    destruct (s =? 0) eqn:E.
    + apply Z.eqb_eq in E. subst s. exists i, p1.
      split; [done|]. split; [done|]. left.
      split; [lia|]. split; [done|]. intros j Hj. lia.
    + pose proof (maxSlots_range p0 Hwf0).
      rewrite u16_small by lia.
      destruct (IH (i + 1) p1 Hf01) as (r & p' & Hloop & Hf' & Hres);
        [lia | lia |].
      exists r, p'. split; [done|]. split; [done|].
      assert (rowInUse p0 i = true) as Hiu.
      { unfold rowInUse. by rewrite Hs, E. }
      destruct Hres as [(Hr & Hv & Hb)|(-> & Hb)].
      * left. split; [lia|]. split; [done|]. intros j Hj.
        destruct (decide (j = i)) as [->|]; [done|]. apply Hb. lia.
      * right. split; [done|]. intros j Hj.
        destruct (decide (j = i)) as [->|]; [done|]. apply Hb. lia.
Qed.

Lemma FirstFreeSlotInfo_spec p :
  WF p ->
  exists r p',
    FirstFreeSlotInfo p = Some (r, p')
    /\ cache_filled p p'
    /\ ((0 <= r < maxSlots p /\ diskSize p r = Some 0
         /\ forall j, 0 <= j < r -> rowInUse p j = true)
        \/ (r = -1 /\ forall j, 0 <= j < maxSlots p -> rowInUse p j = true)).
Proof.
  intros Hwf. pose proof (maxSlots_range p Hwf).
  apply (FirstFreeSlotInfo_loop_spec p Hwf (Z.to_nat (maxSlots p)) 0 p).
  - apply cache_filled_refl.
  - lia.
  - lia.
Qed.

(** *** The search for a slot *)

Lemma FindSlot_body_run minSize i bestSlot bestSlotWaste maxSize p s p1 :
  FreeSlotSize (slotinfoToOffset i) p = Some (s, p1) ->
  FindSlot_body minSize i (bestSlot, bestSlotWaste, maxSize) p
  = Some (let maxSize' := if s >? maxSize then s else maxSize in
          let waste := wasteOf minSize s in
          if waste <? OPTIMAL_WASTE_MARGIN then Return i
          else if bestSlotWaste >? waste then Next (i, waste, maxSize')
               else Next (bestSlot, bestSlotWaste, maxSize'),
          p1).
Proof.
  intros Hrun. unfold FindSlot_body. rewrite (bind_Some _ _ _ _ _ Hrun).
  fold (wasteOf minSize s). cbv zeta.
  pose proof (u32_range (s - minSize)) as Hw. fold (wasteOf minSize s) in Hw.
  replace (wasteOf minSize s >=? 0) with true
    by (symmetry; rewrite Z.geb_leb; apply Z.leb_le; lia).
  destruct (wasteOf minSize s <? OPTIMAL_WASTE_MARGIN); [done|].
  by destruct (bestSlotWaste >? wasteOf minSize s).
Qed.

Lemma FindSlot_loop_spec p0 minSize :
  WF p0 ->
  forall (n : nat) (i : Z) (st : Z * Z * Z) (p : FreePhysicalSlotPage),
    cache_filled p0 p -> 0 <= i -> i + Z.of_nat n = maxSlots p0 ->
    FindSlot_inv p0 minSize i st ->
    exists t p',
      FindSlot_loop n minSize i st p = Some (t, p')
      /\ cache_filled p0 p'
      /\ match t with
         | Return r => first_fit p0 minSize r
         | Next st' => FindSlot_inv p0 minSize (maxSlots p0) st'
         end.
Proof.
  intros Hwf0 n. induction n as [|n IH]; intros i st p Hf Hi Hn Hinv.
  - exists (Next st), p. split; [done|]. split; [done|].
    by replace (maxSlots p0) with i by lia.
  - pose proof (cache_filled_WF _ _ Hwf0 Hf) as Hwf.
    pose proof (maxSlots_range p0 Hwf0) as Hmr.
    destruct Hf as (Hd & Hm & Hrest).
    assert (0 <= i < maxSlots p) as Hi' by lia.
    destruct (FreeSlotSize_filled p i Hwf Hi')
      as (s & p1 & Hrun & Hs & Hsr & Hf1 & _).
    rewrite (diskSize_data p0 p) in Hs by done.
    assert (cache_filled p0 p1) as Hf01.
    { apply (cache_filled_trans p0 p p1); [|done]. by split. }
    destruct st as [[bestSlot bestSlotWaste] maxSize].
    destruct Hinv as (Hmax & Hbelow & Hbest).
    set (maxSize' := if s >? maxSize then s else maxSize).
    assert (maxSize' = maxSizeBelow p0 (Z.to_nat (i + 1))) as Hmax'.
    { replace (Z.to_nat (i + 1)) with (S (Z.to_nat i)) by lia.
      cbn [maxSizeBelow]. rewrite Z2Nat.id by lia. rewrite Hs, <- Hmax.
      cbn [default from_option id]. unfold maxSize'.
      destruct (s >? maxSize) eqn:E.
      - apply Z.gtb_lt in E. lia.
      - rewrite Z.gtb_ltb in E. apply Z.ltb_ge in E. lia. }
    pose proof (u32_range (s - minSize)) as Hw. fold (wasteOf minSize s) in Hw.
    assert (forall st',
      FindSlot_inv p0 minSize (i + 1) st' ->
      exists t p',
        FindSlot_loop n minSize (u16 (i + 1)) st' p1 = Some (t, p')
        /\ cache_filled p0 p'
        /\ match t with
           | Return r => first_fit p0 minSize r
           | Next st'' => FindSlot_inv p0 minSize (maxSlots p0) st''
           end) as Hgo.
    { intros st' Hst'. rewrite u16_small by lia.
      apply IH; [done | lia | lia | done]. }
    cbn [FindSlot_loop].
    rewrite (bind_Some _ _ _ _ _
               (FindSlot_body_run minSize i bestSlot bestSlotWaste maxSize
                  p s p1 Hrun)).
    cbv zeta. fold maxSize'.
    destruct (wasteOf minSize s <? OPTIMAL_WASTE_MARGIN) eqn:Eopt.
    + apply Z.ltb_lt in Eopt. exists (Return i), p1.
      split; [done|]. split; [done|].
      split; [lia|]. split; [by exists s|].
      intros j s' Hj Hs'. by apply (Hbelow j s').
    + apply Z.ltb_ge in Eopt.
      destruct (bestSlotWaste >? wasteOf minSize s) eqn:Ebest.
      * apply Z.gtb_lt in Ebest.
        apply (Hgo (i, wasteOf minSize s, maxSize')).
        split; [done|]. split.
        { intros j s' Hj Hs'.
          destruct (decide (j = i)) as [->|Hne].
          - assert (s' = s) as -> by congruence. lia.
          - destruct (Hbelow j s') as [? ?]; [lia | done | lia]. }
        right. split; [lia|]. split.
        { destruct Hbest as [[_ ->]|(_ & ? & _)]; lia. }
        by exists s.
      * rewrite Z.gtb_ltb in Ebest. apply Z.ltb_ge in Ebest.
        apply (Hgo (bestSlot, bestSlotWaste, maxSize')).
        split; [done|]. split.
        { intros j s' Hj Hs'.
          destruct (decide (j = i)) as [->|Hne].
          - assert (s' = s) as -> by congruence. lia.
          - apply (Hbelow j s'); [lia | done]. }
        destruct Hbest as [?|(? & ? & ?)]; [by left|right].
        split; [lia|]. done.
Qed.

(** [FindSlot] never panics on a well formed page; it only fills the
    cache, and its result is one of three. *)
Lemma FindSlot_spec p minSize :
  WF p ->
  exists r p',
    FindSlot minSize p = Some (r, p')
    /\ cache_filled p p'
    /\ (first_fit p minSize r
        \/ best_fit p minSize r
        \/ (no_fit p minSize /\ r = - maxRowSize p)).
Proof.
  intros Hwf. pose proof (maxSlots_range p Hwf) as Hmr.
  assert (maxAcceptableWaste p + 1 < 4294967296) as Hacc.
  { rewrite (wf_waste p Hwf). pose proof (wf_len_hi p Hwf).
    assert (Z.of_nat (length (Data p)) / 4 <= 65536 / 4)
      by (apply Z.div_le_mono; lia).
    change (65536 / 4) with 16384 in *. lia. }
  assert (0 <= maxAcceptableWaste p) as Hacc0.
  { rewrite (wf_waste p Hwf). apply Z.div_pos; lia. }
  destruct (FindSlot_loop_spec p minSize Hwf (Z.to_nat (maxSlots p)) 0
              (-1, u32 (maxAcceptableWaste p + 1), 0) p)
    as (t & p' & Hloop & Hf & Hres).
  { apply cache_filled_refl. }
  { lia. }
  { lia. }
  { split; [done|]. split; [intros j s Hj; lia|]. left.
    split; [done|]. apply u32_small. lia. }
  unfold FindSlot. rewrite (bind_Some _ _ _ _ _ Hloop).
  destruct t as [[[bestSlot bestSlotWaste] maxSize]|r].
  - destruct Hres as (Hmax & Hbelow & Hbest).
    assert (maxAcceptableWaste p' = maxAcceptableWaste p) as Ha by apply Hf.
    rewrite Ha.
    destruct (negb (bestSlot =? -1)
              && ((bestSlotWaste <? maxAcceptableWaste p)
                  && (bestSlotWaste <? MAX_AVAILABLE_SIZE_DIFFERENCE)))
      eqn:E.
    + exists bestSlot, p'. split; [done|]. split; [done|]. right. left.
      apply andb_true_iff in E as [E1 E2].
      apply andb_true_iff in E2 as [E2 E3].
      apply negb_true_iff, Z.eqb_neq in E1.
      apply Z.ltb_lt in E2. apply Z.ltb_lt in E3.
      destruct Hbest as [[? _]|(Hb & _ & s & Hs & Hw)]; [done|].
      split; [done|]. exists s. rewrite <- Hw.
      split; [done|]. split; [done|]. split; [done|].
      intros j s' Hj Hs'. by apply (Hbelow j s').
    + exists (- maxSize), p'. split; [done|]. split; [done|]. right. right.
      split; [|by rewrite Hmax].
      intros j s Hj Hs. destruct (Hbelow j s Hj Hs) as [H1 H2].
      split; [done|]. intros [H3 H4].
      apply andb_false_iff in E as [E|E].
      * apply negb_false_iff, Z.eqb_eq in E.
        destruct Hbest as [[_ ->]|(? & _)]; lia.
      * apply andb_false_iff in E as [E|E]; apply Z.ltb_ge in E; lia.
  - exists r, p'. split; [done|]. split; [done|]. by left.
Qed.

(** *** Counting the rows in use *)

Lemma rowInUse_ext p p' j :
  diskSize p' j = diskSize p j -> rowInUse p' j = rowInUse p j.
Proof. unfold rowInUse. by intros ->. Qed.

Lemma usedBelow_ext p p' n :
  (forall j, 0 <= j < Z.of_nat n -> diskSize p' j = diskSize p j) ->
  usedBelow p' n = usedBelow p n.
Proof.
  induction n as [|n IH]; intros H; [done|].
  cbn [usedBelow]. rewrite IH by (intros j Hj; apply H; lia).
  rewrite (rowInUse_ext p p') by (apply H; lia). done.
Qed.

Lemma usedBelow_update p p' n i :
  0 <= i < Z.of_nat n ->
  (forall j, 0 <= j < Z.of_nat n -> j <> i -> diskSize p' j = diskSize p j) ->
  usedBelow p' n
  = usedBelow p n + Z.b2z (rowInUse p' i) - Z.b2z (rowInUse p i).
Proof.
  induction n as [|n IH]; intros Hi H; [lia|].
  cbn [usedBelow].
  destruct (decide (i = Z.of_nat n)) as [->|Hne].
  - rewrite (usedBelow_ext p p' n) by (intros j Hj; apply H; lia).
    destruct (rowInUse p' (Z.of_nat n)), (rowInUse p (Z.of_nat n));
      cbn [Z.b2z]; lia.
  - rewrite IH by (try lia; intros j Hj Hji; apply H; lia).
    rewrite (rowInUse_ext p p' (Z.of_nat n)) by (apply H; lia). lia.
Qed.

Lemma usedBelow_range p n : 0 <= usedBelow p n <= Z.of_nat n.
Proof.
  induction n as [|n IH]; cbn [usedBelow]; [lia|].
  destruct (rowInUse p (Z.of_nat n)); lia.
Qed.

Lemma usedBelow_vacant p n i :
  0 <= i < Z.of_nat n -> rowInUse p i = false ->
  usedBelow p n <= Z.of_nat n - 1.
Proof.
  induction n as [|n IH]; intros Hi Hv; [lia|].
  cbn [usedBelow]. pose proof (usedBelow_range p n).
  destruct (decide (i = Z.of_nat n)) as [->|Hne].
  - rewrite Hv. lia.
  - specialize (IH ltac:(lia) Hv).
    destruct (rowInUse p (Z.of_nat n)); lia.
Qed.

Lemma usedBelow_used p n i :
  0 <= i < Z.of_nat n -> rowInUse p i = true -> 1 <= usedBelow p n.
Proof.
  induction n as [|n IH]; intros Hi Hv; [lia|].
  cbn [usedBelow]. pose proof (usedBelow_range p n).
  destruct (decide (i = Z.of_nat n)) as [->|Hne].
  - rewrite Hv. lia.
  - specialize (IH ltac:(lia) Hv).
    destruct (rowInUse p (Z.of_nat n)); lia.
Qed.

Lemma count_ok_spec p :
  count_ok p = true <-> diskCount p = Some (usedRows p).
Proof.
  unfold count_ok. destruct (diskCount p) as [c|]; [|done].
  rewrite Z.eqb_eq. split; congruence.
Qed.

Lemma usedRows_keeps p p' i :
  WF p -> 0 <= i < maxSlots p -> keeps p p' i false false false ->
  usedRows p'
  = usedRows p + Z.b2z (rowInUse p' i) - Z.b2z (rowInUse p i).
Proof.
  intros Hwf Hi (Hm & _ & _ & Hs & _). unfold usedRows. rewrite Hm.
  apply usedBelow_update; [lia|].
  intros j Hj Hne. apply Hs; [lia | by right].
Qed.

(** *** Single operations *)

Lemma after_Some {A} (m : M A) p a p' :
  m p = Some (a, p') -> after m p = Some p'.
Proof. unfold after. by intros ->. Qed.

Lemma is_row_offset_spec m offset :
  layout_ok = true -> is_row_offset m offset = true ->
  0 <= offsetToSlotinfo offset < m
  /\ slotinfoToOffset (offsetToSlotinfo offset) = offset.
Proof.
  intros HL%layout_ok_spec [H1 H2]%andb_true_iff.
  apply Z.ltb_lt in H1. apply Z.eqb_eq in H2.
  split; [|done]. split; [|done].
  unfold offsetToSlotinfo, u16, SLOT_INFO_SIZE, SIZE_INFO_SIZE.
  apply Z.div_pos; [|lia]. apply Z.mod_pos_bound. lia.
Qed.

Lemma SlotInfoLocation_spec p i :
  WF p -> 0 <= i < maxSlots p ->
  exists l, diskLocation p i = Some l
            /\ SlotInfoLocation i p
               = Some (PackLocation (LocationRecord l) (LocationOffset l), p).
Proof.
  intros Hwf Hi.
  pose proof (layout_ok_spec (wf_layout p Hwf)) as HL.
  destruct (rows_fit p i Hwf Hi) as (Hi0 & Hi1 & Hi2).
  assert (exists l, diskLocation p i = Some l) as (l & Hl).
  { rewrite (diskLocation_row p) by done. eexists.
    apply ReadUInt_Some; unfold SLOT_INFO_SIZE, SIZE_INFO_SIZE in *; lia. }
  exists l. split; [done|].
  unfold diskLocation in Hl.
  unfold SlotInfoLocation, SlotInfoRecord, SlotInfoOffset, bind, ReadUInt, ret.
  rewrite Hl. by rewrite Hl.
Qed.

(** An operation with valid arguments does not panic and keeps the page
    well formed; it leaves the size and the location of every row but the
    one it writes, and the row count unless it claims or releases. *)
Lemma run_op_valid p o :
  WF p -> op_valid (maxSlots p) o = true ->
  exists p',
    run_op o p = Some p' /\ WF p'
    /\ keeps p p' (default 0 (op_row o))
         (negb (writes_any o)) (negb (writes_any o))
         (negb (is_claim_release o)).
Proof.
  intros Hwf Hv. pose proof (wf_layout p Hwf) as HL.
  destruct o as [| |i|offset|offset size|i|i| |minSize];
    cbn [run_op op_row is_claim_release default from_option id negb
         writes_any op_valid] in *.
  - exists p. split; [done|]. split; [done|]. apply keeps_refl.
  - destruct (FreeSlotCount_spec p Hwf) as (c & _ & _ & Hrun).
    exists p. split; [by apply (after_Some _ _ _ _ Hrun)|].
    split; [done|]. apply keeps_refl.
  - apply andb_true_iff in Hv as [H1%Z.leb_le H2%Z.ltb_lt].
    destruct (SlotInfoLocation_spec p i Hwf) as (l & _ & Hrun); [lia|].
    exists p. split; [by apply (after_Some _ _ _ _ Hrun)|].
    split; [done|]. apply keeps_refl.
  - destruct (is_row_offset_spec _ _ HL Hv) as [Hj Hoff].
    destruct (FreeSlotSize_filled p _ Hwf Hj)
      as (s & p' & Hrun & _ & _ & Hf & Hwf' & _).
    rewrite Hoff in Hrun.
    exists p'. split; [by apply (after_Some _ _ _ _ Hrun)|].
    split; [done|]. by apply cache_filled_keeps.
  - apply andb_true_iff in Hv as [Hv H3%Z.ltb_lt].
    apply andb_true_iff in Hv as [Hv H2%Z.leb_le].
    destruct (is_row_offset_spec _ _ HL Hv) as [Hj Hoff].
    destruct (SetFreeSlotSize_spec p _ size Hwf Hj)
      as (p' & Hrun & Hwf' & _ & Hk & _); [lia|].
    rewrite Hoff in Hrun.
    exists p'. split; [by apply (after_Some _ _ _ _ Hrun)|].
    split; [done|]. by apply (keeps_weaken _ _ _ _ _ _ _ _ _ Hk).
  - apply andb_true_iff in Hv as [H1%Z.leb_le H2%Z.ltb_lt].
    destruct (AllocateSlotInfo_spec p i Hwf)
      as (c & p' & _ & _ & Hrun & Hwf' & _ & _ & _ & Hk & _); [lia|].
    exists p'. split; [by apply (after_Some _ _ _ _ Hrun)|]. done.
  - apply andb_true_iff in Hv as [H1%Z.leb_le H2%Z.ltb_lt].
    destruct (ReleaseSlotInfo_spec p i Hwf)
      as (c & p' & _ & _ & Hrun & Hwf' & _ & _ & _ & Hk & _); [lia|].
    exists p'. split; [by apply (after_Some _ _ _ _ Hrun)|]. done.
  - destruct (FirstFreeSlotInfo_spec p Hwf) as (r & p' & Hrun & Hf & _).
    exists p'. split; [by apply (after_Some _ _ _ _ Hrun)|].
    split; [by apply (cache_filled_WF p)|]. by apply cache_filled_keeps.
  - destruct (FindSlot_spec p minSize Hwf) as (r & p' & Hrun & Hf & _).
    exists p'. split; [by apply (after_Some _ _ _ _ Hrun)|].
    split; [by apply (cache_filled_WF p)|]. by apply cache_filled_keeps.
Qed.

(** A sequence of valid operations that do not write row [i] leaves the
    size and the location of row [i]. *)
Lemma run_ops_row_kept i os :
  forall p,
    WF p -> 0 <= i < maxSlots p ->
    forallb (fun o => op_valid (maxSlots p) o && negb (writes_row i o)) os
    = true ->
    exists p',
      run_ops os p = Some p' /\ WF p' /\ maxSlots p' = maxSlots p
      /\ diskSize p' i = diskSize p i
      /\ diskLocation p' i = diskLocation p i.
Proof.
  induction os as [|o os IH]; intros p Hwf Hi Hall.
  - exists p. by split_and!.
  - cbn [forallb] in Hall. apply andb_true_iff in Hall as [Ho Hall].
    apply andb_true_iff in Ho as [Hv Hw].
    destruct (run_op_valid p o Hwf Hv) as (p1 & Hrun & Hwf1 & Hk).
    assert (maxSlots p1 = maxSlots p) as Hm by apply Hk.
    assert (diskSize p1 i = diskSize p i
            /\ diskLocation p1 i = diskLocation p i) as [Hs1 Hl1].
    { destruct Hk as (_ & _ & _ & Hs & Hl & _).
      unfold writes_row in Hw.
      unfold writes_any in Hs, Hl.
      destruct (op_row o) as [j|]; cbn [default from_option id negb] in *.
      - apply negb_true_iff, Z.eqb_neq in Hw.
        split; [apply Hs | apply Hl]; try lia; right; congruence.
      - split; [apply Hs | apply Hl]; try lia; by left. }
    destruct (IH p1 Hwf1) as (p' & Hrun' & Hwf' & Hm' & Hs' & Hl').
    { lia. }
    { by rewrite Hm. }
    exists p'. cbn [run_ops]. rewrite Hrun.
    split; [done|]. split; [done|]. split; [congruence|].
    split; congruence.
Qed.

(** *** The largest row and the waste *)

Lemma maxSizeBelow_bound p n j s :
  0 <= j < Z.of_nat n -> diskSize p j = Some s -> s <= maxSizeBelow p n.
Proof.
  induction n as [|n IH]; intros Hj Hs; [lia|].
  cbn [maxSizeBelow].
  destruct (decide (j = Z.of_nat n)) as [->|Hne].
  - rewrite Hs. cbn [default from_option id]. lia.
  - specialize (IH ltac:(lia) Hs). lia.
Qed.

Lemma maxSizeBelow_attained p n :
  0 < maxSizeBelow p n ->
  exists j, 0 <= j < Z.of_nat n /\ diskSize p j = Some (maxSizeBelow p n).
Proof.
  induction n as [|n IH]; cbn [maxSizeBelow]; intros Hpos; [lia|].
  destruct (Z.max_spec (maxSizeBelow p n)
              (default 0 (diskSize p (Z.of_nat n)))) as [[Hlt Hmax]|[Hle Hmax]];
    rewrite Hmax in *.
  - exists (Z.of_nat n). split; [lia|].
    destruct (diskSize p (Z.of_nat n)) as [s|]; [done|].
    cbn [default from_option id] in *. lia.
  - destruct (IH Hpos) as (j & Hj & Hs). exists j. split; [lia|done].
Qed.

Lemma maxSizeBelow_nonneg p n : 0 <= maxSizeBelow p n.
Proof. induction n as [|n IH]; cbn [maxSizeBelow]; lia. Qed.

Lemma maxRowSize_zero p :
  WF p -> maxRowSize p = 0 ->
  forall j, 0 <= j < maxSlots p -> diskSize p j = Some 0.
Proof.
  intros Hwf Hz j Hj.
  destruct (diskSize_Some p j Hwf Hj) as (s & Hs & Hr).
  pose proof (maxSizeBelow_bound p (Z.to_nat (maxSlots p)) j s
                ltac:(lia) Hs) as Hb.
  fold (maxRowSize p) in Hb. rewrite Hs. f_equal. lia.
Qed.

Lemma maxRowSize_positive p :
  WF p ->
  (0 < maxRowSize p
   <-> exists j, 0 <= j < maxSlots p /\ rowInUse p j = true).
Proof.
  intros Hwf. split.
  - intros Hpos. destruct (maxSizeBelow_attained p _ Hpos) as (j & Hj & Hs).
    exists j. split; [lia|]. unfold rowInUse. rewrite Hs.
    apply negb_true_iff, Z.eqb_neq. unfold maxRowSize in Hpos. lia.
  - intros (j & Hj & Hu). unfold rowInUse in Hu.
    destruct (diskSize_Some p j Hwf Hj) as (s & Hs & Hr).
    rewrite Hs in Hu. apply negb_true_iff, Z.eqb_neq in Hu.
    pose proof (maxSizeBelow_bound p (Z.to_nat (maxSlots p)) j s
                  ltac:(lia) Hs) as Hb.
    fold (maxRowSize p) in Hb. lia.
Qed.

Lemma wasteOf_fit minSize s :
  0 <= minSize <= s -> s < 4294967296 -> wasteOf minSize s = s - minSize.
Proof. intros. unfold wasteOf. apply u32_small. lia. Qed.

Lemma wasteOf_wrap minSize s :
  0 <= s < minSize -> minSize < 4294967296 ->
  wasteOf minSize s = s - minSize + 4294967296.
Proof.
  intros. unfold wasteOf, u32. symmetry.
  apply (Z.mod_unique _ _ (-1)); lia.
Qed.

Lemma maxAcceptableWaste_range p :
  WF p -> 0 <= maxAcceptableWaste p <= 16384.
Proof.
  intros Hwf. rewrite (wf_waste p Hwf). pose proof (wf_len_hi p Hwf).
  split; [apply Z.div_pos; lia|].
  change 16384 with (65536 / 4). apply Z.div_le_mono; lia.
Qed.

(** Below the requests whose waste wraps around into the accepted range,
    a row [FindSlot] takes for a fit is a fit. *)
Lemma fit_is_real p minSize j s bound :
  WF p -> 0 <= j < maxSlots p -> diskSize p j = Some s ->
  0 <= minSize -> minSize + bound <= 4294967296 ->
  wasteOf minSize s < bound ->
  minSize <= s /\ wasteOf minSize s = s - minSize.
Proof.
  intros Hwf Hj Hs Hm Hb Hw.
  destruct (diskSize_Some p j Hwf Hj) as (s' & Hs' & Hr).
  assert (s' = s) as -> by congruence.
  pose proof (u32_range (s - minSize)) as Hu. fold (wasteOf minSize s) in Hu.
  destruct (Z.le_gt_cases minSize s) as [Hle|Hgt].
  - split; [done|]. apply wasteOf_fit; lia.
  - rewrite wasteOf_wrap in Hw by lia. lia.
Qed.

Lemma location_placeholder :
  layout_ok = true -> PackLocation 1 1 `mod` 256 ^ LOCATION_SIZE = 65537.
Proof.
  intros HL%layout_ok_spec. apply Z.mod_small.
  assert (256 ^ 3 <= 256 ^ LOCATION_SIZE) by (apply Z.pow_le_mono_r; lia).
  change (256 ^ 3) with 16777216 in *. unfold PackLocation. lia.
Qed.

(** *** Sequences of operations that keep the row count *)

Lemma run_op_count p o :
  WF p -> count_ok p = true -> vacancy_pre p o = true ->
  exists p',
    run_op o p = Some p' /\ WF p' /\ count_ok p' = true
    /\ (is_claim_release o = false -> diskCount p' = diskCount p).
Proof.
  intros Hwf Hcnt Hpre. apply count_ok_spec in Hcnt.
  pose proof (wf_layout p Hwf) as HL.
  pose proof (maxSlots_range p Hwf) as Hmr.
  apply andb_true_iff in Hpre as [Hpre Hvac].
  apply andb_true_iff in Hpre as [Hv Hcr].
  assert (forall p', WF p' -> keeps p p' 0 true true true ->
                     count_ok p' = true /\ diskCount p' = diskCount p)
    as Hread.
  { intros p' Hwf' (Hm & _ & _ & Hs & _ & Hc).
    split; [|by apply Hc]. apply count_ok_spec.
    rewrite Hc, Hcnt by done. f_equal. unfold usedRows. rewrite Hm.
    symmetry. apply usedBelow_ext. intros j Hj. apply Hs; [lia|by left]. }
  destruct o as [| |i|offset|offset size|i|i| |minSize];
    try (destruct (run_op_valid p _ Hwf Hv) as (p' & Hrun & Hwf' & Hk);
         cbn [op_row default from_option id writes_any negb
              is_claim_release] in Hk;
         destruct (Hread p' Hwf' (keeps_all _ _ _ 0 Hk)) as [? ?];
         exists p'; split_and!; done).
  - cbn [op_valid] in Hv.
    apply andb_true_iff in Hv as [Hv H3%Z.ltb_lt].
    apply andb_true_iff in Hv as [Hv H2%Z.leb_le].
    destruct (is_row_offset_spec _ _ HL Hv) as [Hj Hoff].
    set (j := offsetToSlotinfo offset) in *.
    destruct (SetFreeSlotSize_spec p j size Hwf Hj)
      as (p' & Hrun & Hwf' & Hsz & Hk & _); [lia|].
    rewrite Hoff in Hrun.
    exists p'. split; [by apply (after_Some _ _ _ _ Hrun)|].
    split; [done|].
    assert (diskCount p' = diskCount p) as Hc by (by apply Hk).
    split; [|done]. apply count_ok_spec. rewrite Hc, Hcnt. f_equal.
    rewrite (usedRows_keeps p p' j Hwf Hj)
      by (by apply (keeps_weaken _ _ _ _ _ _ _ _ _ Hk)).
    apply eqb_prop in Hvac. rewrite Hvac.
    unfold rowInUse at 1. rewrite Hsz. lia.
  - cbn [op_valid] in Hv.
    apply andb_true_iff in Hv as [H1%Z.leb_le H2%Z.ltb_lt].
    apply negb_true_iff in Hcr.
    destruct (AllocateSlotInfo_spec p i Hwf)
      as (c & p' & Hc0 & Hcr0 & Hrun & Hwf' & Hsz & _ & Hc' & Hk & _); [lia|].
    exists p'. split; [by apply (after_Some _ _ _ _ Hrun)|].
    split; [done|]. split; [|done]. apply count_ok_spec.
    rewrite Hc'. f_equal.
    rewrite (usedRows_keeps p p' i Hwf) by (done || lia).
    rewrite Hcr. unfold rowInUse at 1. rewrite Hsz. cbn.
    assert (c = usedRows p) as -> by congruence.
    pose proof (usedBelow_vacant p (Z.to_nat (maxSlots p)) i
                  ltac:(lia) Hcr) as Hub.
    fold (usedRows p) in Hub. rewrite u16_small by lia. lia.
  - cbn [op_valid] in Hv.
    apply andb_true_iff in Hv as [H1%Z.leb_le H2%Z.ltb_lt].
    destruct (ReleaseSlotInfo_spec p i Hwf)
      as (c & p' & Hc0 & Hcr0 & Hrun & Hwf' & Hsz & _ & Hc' & Hk & _); [lia|].
    exists p'. split; [by apply (after_Some _ _ _ _ Hrun)|].
    split; [done|]. split; [|done]. apply count_ok_spec.
    rewrite Hc'. f_equal.
    rewrite (usedRows_keeps p p' i Hwf) by (done || lia).
    rewrite Hcr. unfold rowInUse at 1. rewrite Hsz. cbn.
    assert (c = usedRows p) as -> by congruence.
    pose proof (usedBelow_used p (Z.to_nat (maxSlots p)) i
                  ltac:(lia) Hcr) as Hub.
    fold (usedRows p) in Hub. rewrite u16_small by lia. lia.
Qed.

Lemma run_ops_count os :
  forall p,
    WF p -> count_ok p = true -> ops_pre vacancy_pre p os = true ->
    exists p',
      run_ops os p = Some p' /\ WF p' /\ count_ok p' = true
      /\ (forallb (fun o => negb (is_claim_release o)) os = true ->
          diskCount p' = diskCount p).
Proof.
  induction os as [|o os IH]; intros p Hwf Hcnt Hpre.
  - exists p. by split_and!.
  - cbn [ops_pre] in Hpre. apply andb_true_iff in Hpre as [Ho Hrest].
    destruct (run_op_count p o Hwf Hcnt Ho) as (p1 & Hrun & Hwf1 & Hcnt1 & Hc1).
    rewrite Hrun in Hrest.
    destruct (IH p1 Hwf1 Hcnt1 Hrest) as (p' & Hrun' & Hwf' & Hcnt' & Hc').
    exists p'. cbn [run_ops forallb]. rewrite Hrun.
    split_and!; try done.
    intros [Hn Hall]%andb_true_iff. apply negb_true_iff in Hn.
    rewrite Hc', Hc1; done.
Qed.

End PageFacts.

(** ** The properties of the page *)

Section Properties.

Context {L : Layout}.

Local Open Scope page_scope.

(** Where the search is right: below the requests whose waste can wrap
    around into the optimal margin, [FindSlot] returns a row within the
    margin whenever the page has one. *)
Lemma FindSlot_first_fit_below_wrap p minSize :
  wf p = true -> 0 <= minSize ->
  minSize + OPTIMAL_WASTE_MARGIN <= 4294967296 ->
  FindSlot_first_fit p minSize.
Proof.
  intros Hwf%wf_WF Hm Hb (j & Hj & s & Hs & Hle & Hw).
  destruct (diskSize_Some p j Hwf Hj) as (s' & Hs' & Hr).
  assert (s' = s) as -> by congruence.
  assert (wasteOf minSize s < OPTIMAL_WASTE_MARGIN) as Hwj
    by (rewrite wasteOf_fit by lia; done).
  destruct (FindSlot_spec p minSize Hwf) as (r & p' & Hrun & _ & Hres).
  exists r, p'. split; [done|].
  destruct Hres as [(Hr0 & (sr & Hsr & Hwr) & _)|[Hbest|[Hno _]]].
  - split; [done|].
    destruct (fit_is_real p minSize r sr _ Hwf Hr0 Hsr Hm Hb Hwr) as [? Heq].
    exists sr. split; [done|]. split; [done|]. by rewrite <- Heq.
  - destruct Hbest as (_ & sr & _ & _ & _ & Hall).
    destruct (Hall j s Hj Hs) as [? _]. lia.
  - destruct (Hno j s Hj Hs) as [? _]. lia.
Qed.

(** C1 (as amended).  On a well formed page, for a request [minSize]
    that leaves room for the optimal margin and for the acceptable waste
    below 2^32, [FindSlot] returns, and a result [r >= 0] is the index of
    a row whose size on the record is at least [minSize], or it is 0 on a
    page whose rows are all vacant (the result [-maxSize] of an exhausted
    page with [maxSize = 0]). *)
Theorem FindSlot_fit_or_all_vacant p minSize :
  wf p = true -> 0 <= minSize ->
  minSize + OPTIMAL_WASTE_MARGIN <= 4294967296 ->
  minSize + maxAcceptableWaste p < 4294967296 ->
  exists r p',
    FindSlot minSize p = Some (r, p')
    /\ (0 <= r ->
        (r < maxSlots p /\ exists s, diskSize p r = Some s /\ minSize <= s)
        \/ (r = 0 /\ forall j, 0 <= j < maxSlots p -> diskSize p j = Some 0)).
Proof.
  intros Hwf%wf_WF Hm Hb1 Hb2.
  destruct (FindSlot_spec p minSize Hwf) as (r & p' & Hrun & _ & Hres).
  exists r, p'. split; [done|]. intros Hr.
  destruct Hres as [(Hr0 & (s & Hs & Hw) & _)|[Hbest|[_ ->]]].
  - left. split; [lia|]. exists s. split; [done|].
    by apply (fit_is_real p minSize r s _ Hwf Hr0 Hs Hm Hb1 Hw).
  - destruct Hbest as (Hr0 & s & Hs & Hw & _).
    left. split; [lia|]. exists s. split; [done|].
    apply (fit_is_real p minSize r s (maxAcceptableWaste p) Hwf Hr0 Hs Hm);
      [lia | done].
  - right. pose proof (maxSizeBelow_nonneg p (Z.to_nat (maxSlots p))) as Hn.
    fold (maxRowSize p) in Hn.
    assert (maxRowSize p = 0) as Hz by lia.
    split; [lia|]. by apply maxRowSize_zero.
Qed.

(** C3 (as amended).  On a well formed page whose acceptable waste and
    whose [MAX_AVAILABLE_SIZE_DIFFERENCE] are not below the optimal
    margin, for a request that leaves room for the acceptable waste below
    2^32: when no row fits the request with a waste below both bounds,
    [FindSlot] does not panic and returns [- maxRowSize p], the largest
    size of a row negated.  That value is negative when some row is in
    use, and 0 when every row is vacant. *)
Theorem FindSlot_exhausted_result p minSize :
  wf p = true -> 0 <= minSize ->
  minSize + maxAcceptableWaste p < 4294967296 ->
  OPTIMAL_WASTE_MARGIN <= maxAcceptableWaste p ->
  OPTIMAL_WASTE_MARGIN <= MAX_AVAILABLE_SIZE_DIFFERENCE ->
  (forall j, 0 <= j < maxSlots p -> ~ acceptable_row p minSize j) ->
  exists p',
    FindSlot minSize p = Some (- maxRowSize p, p')
    /\ - maxRowSize p <= 0
    /\ (- maxRowSize p < 0
        <-> exists j, 0 <= j < maxSlots p /\ rowInUse p j = true).
Proof.
  intros Hwf%wf_WF Hm Hb Ha Hd Hnone.
  destruct (FindSlot_spec p minSize Hwf) as (r & p' & Hrun & _ & Hres).
  pose proof (maxSizeBelow_nonneg p (Z.to_nat (maxSlots p))) as Hn.
  fold (maxRowSize p) in Hn.
  destruct Hres as [(Hr0 & (s & Hs & Hw) & _)|[Hbest|[_ ->]]].
  - exfalso. apply (Hnone r Hr0). unfold OPTIMAL_WASTE_MARGIN in *.
    destruct (fit_is_real p minSize r s 128 Hwf Hr0 Hs Hm ltac:(lia) Hw)
      as [Hle Heq].
    exists s. split; [done|]. split; [done|]. lia.
  - exfalso. destruct Hbest as (Hr0 & s & Hs & Hw1 & Hw2 & _).
    apply (Hnone r Hr0).
    destruct (fit_is_real p minSize r s (maxAcceptableWaste p) Hwf Hr0 Hs Hm
                ltac:(lia) Hw1) as [Hle Heq].
    exists s. split; [done|]. split; [done|]. lia.
  - exists p'. split; [done|]. split; [lia|].
    rewrite <- (maxRowSize_positive p Hwf). lia.
Qed.

(** C4.  On a well formed page, for a row [i] and a 32 bit value [s]:
    after [SetFreeSlotSize] of [s] at the offset of row [i], and after any
    further operations that do not set the size of that row ([os], none
    when it is empty), [FreeSlotSize] at the offset returns [s]. *)
Theorem SetFreeSlotSize_FreeSlotSize p i s os :
  wf p = true -> 0 <= i < maxSlots p -> 0 <= s < 4294967296 ->
  forallb (fun o => op_valid (maxSlots p) o && negb (writes_row i o)) os
  = true ->
  exists p1 p2 p3,
    SetFreeSlotSize (slotinfoToOffset i) s p = Some (tt, p1)
    /\ run_ops os p1 = Some p2
    /\ FreeSlotSize (slotinfoToOffset i) p2 = Some (s, p3).
Proof.
  intros Hwf%wf_WF Hi Hs Hos.
  destruct (SetFreeSlotSize_spec p i s Hwf Hi Hs)
    as (p1 & Hrun1 & Hwf1 & Hsz1 & Hk1 & _).
  assert (maxSlots p1 = maxSlots p) as Hm1 by apply Hk1.
  destruct (run_ops_row_kept i os p1 Hwf1)
    as (p2 & Hrun2 & Hwf2 & Hm2 & Hsz2 & _); [lia | by rewrite Hm1 |].
  destruct (FreeSlotSize_filled p2 i Hwf2)
    as (s' & p3 & Hrun3 & Hsz3 & _); [lia|].
  assert (s' = s) as -> by congruence.
  by exists p1, p2, p3.
Qed.

Lemma FreeSlotCount_diskCount p c p' :
  FreeSlotCount p = Some (c, p') -> diskCount p = Some c /\ p' = p.
Proof.
  unfold FreeSlotCount, ReadUInt16, diskCount.
  destruct (Rec.ReadUInt16 (Data p) OFFSET_COUNT) as [v|]; [|done].
  intros [= <- <-]. done.
Qed.

(** The placeholder location is not the least packed value that is not
    zero: record 0 with offset 1 packs to 1. *)
Lemma placeholder_location_not_least : ~ least_location (PackLocation 1 1).
Proof.
  intros [_ Hleast]. specialize (Hleast 0 1).
  unfold PackLocation in Hleast. lia.
Qed.


(** C6.  On a well formed page, for a vacant row [i]: after
    [AllocateSlotInfo i] and then [ReleaseSlotInfo i], [FreeSlotCount] is
    what it was before the two calls, and the size of the row is 0, on the
    record and as [FreeSlotSize] returns it. *)
Theorem AllocateSlotInfo_ReleaseSlotInfo p i :
  wf p = true -> 0 <= i < maxSlots p -> diskSize p i = Some 0 ->
  exists c p1 p2,
    FreeSlotCount p = Some (c, p)
    /\ AllocateSlotInfo i p = Some (slotinfoToOffset i, p1)
    /\ ReleaseSlotInfo i p1 = Some (slotinfoToOffset i, p2)
    /\ FreeSlotCount p2 = Some (c, p2)
    /\ diskSize p2 i = Some 0
    /\ fst <$> FreeSlotSize (slotinfoToOffset i) p2 = Some 0.
Proof.
  intros Hwf%wf_WF Hi _.
  destruct (AllocateSlotInfo_spec p i Hwf Hi)
    as (c & p1 & Hc & Hcr & Hrun1 & Hwf1 & _ & _ & Hc1 & Hk1 & _).
  assert (maxSlots p1 = maxSlots p) as Hm1 by apply Hk1.
  destruct (ReleaseSlotInfo_spec p1 i Hwf1)
    as (c1 & p2 & Hc1' & _ & Hrun2 & Hwf2 & Hsz2 & _ & Hc2 & Hk2 & _); [lia|].
  assert (maxSlots p2 = maxSlots p1) as Hm2 by apply Hk2.
  assert (c1 = u16 (c + 1)) as -> by congruence.
  assert (u16 (u16 (c + 1) - 1) = c) as Hback.
  { unfold u16. rewrite Zminus_mod_idemp_l.
    replace (c + 1 - 1) with c by lia. apply Z.mod_small. lia. }
  rewrite Hback in Hc2.
  exists c, p1, p2. split_and!; try done.
  - destruct (FreeSlotCount_spec p Hwf) as (c0 & Hc0 & _ & Hr0). congruence.
  - destruct (FreeSlotCount_spec p2 Hwf2) as (c0 & Hc0 & _ & Hr0). congruence.
  - destruct (FreeSlotSize_filled p2 i Hwf2)
      as (s' & p3 & Hrun3 & Hsz3 & _); [lia|].
    rewrite Hrun3. cbn. congruence.
Qed.

(** C7.  On a well formed page [FirstFreeSlotInfo] returns the least row
    index whose size is 0: a row index [r] below [maxSlots] of size 0 with
    every row below [r] in use, or -1 when every row of the page is in
    use. *)
Theorem FirstFreeSlotInfo_first_vacant p :
  wf p = true ->
  exists r p',
    FirstFreeSlotInfo p = Some (r, p')
    /\ ((0 <= r < maxSlots p /\ diskSize p r = Some 0
         /\ forall j, 0 <= j < r -> rowInUse p j = true)
        \/ (r = -1
            /\ forall j, 0 <= j < maxSlots p -> rowInUse p j = true)).
Proof.
  intros Hwf%wf_WF.
  destruct (FirstFreeSlotInfo_spec p Hwf) as (r & p' & Hrun & _ & Hres).
  by exists r, p'.
Qed.

(** C8 (as amended).  From a well formed page whose row count is the
    number of rows in use, a sequence of operations runs without a panic
    and ends in such a page again, when along the sequence
    [AllocateSlotInfo] is called on vacant rows only, [ReleaseSlotInfo] on
    rows in use only, and [SetFreeSlotSize] only with a size that is zero
    on a vacant row and not zero on a row in use.  A sequence without
    [AllocateSlotInfo] and [ReleaseSlotInfo] leaves the row count as it
    was. *)
Theorem row_count_kept p os :
  wf p = true -> count_ok p = true -> ops_pre vacancy_pre p os = true ->
  exists p',
    run_ops os p = Some p' /\ wf p' = true /\ count_ok p' = true
    /\ (forallb (fun o => negb (is_claim_release o)) os = true ->
        diskCount p' = diskCount p).
Proof.
  intros Hwf%wf_WF Hcnt Hpre.
  destruct (run_ops_count os p Hwf Hcnt Hpre)
    as (p' & Hrun & Hwf' & Hcnt' & Hc).
  exists p'. split_and!; try done. by apply wf_WF.
Qed.

(** C9.  On a well formed page whose [FreeSlotCount] is 0,
    [ReleaseSlotInfo] on a row of the page sets the row count to 65535. *)
Theorem ReleaseSlotInfo_wraps_count p i :
  wf p = true -> 0 <= i < maxSlots p ->
  FreeSlotCount p = Some (0, p) ->
  exists p',
    ReleaseSlotInfo i p = Some (slotinfoToOffset i, p')
    /\ FreeSlotCount p' = Some (65535, p').
Proof.
  intros Hwf%wf_WF Hi Hzero.
  destruct (ReleaseSlotInfo_spec p i Hwf Hi)
    as (c & p' & Hc & _ & Hrun & Hwf' & _ & _ & Hc' & _).
  destruct (FreeSlotCount_spec p Hwf) as (c0 & Hc0 & _ & Hr0).
  assert (c = 0) as -> by congruence.
  exists p'. split; [done|].
  destruct (FreeSlotCount_spec p' Hwf') as (c1 & Hc1 & _ & Hr1).
  rewrite Hr1. do 2 f_equal.
  assert (Some c1 = Some (u16 (0 - 1))) as [= ->] by congruence. done.
Qed.

(** C10.  On a well formed page [FindSlot] returns and leaves the bytes
    of the record as they were, and with them the row count and the size
    and the location of every row; the fields [maxSlots] and
    [maxAcceptableWaste] are unchanged, and an entry of the cache is what
    it was, or it was zero and is now the size of its row on the
    record. *)
Theorem FindSlot_frame p minSize :
  wf p = true ->
  exists r p',
    FindSlot minSize p = Some (r, p')
    /\ Data p' = Data p
    /\ diskCount p' = diskCount p
    /\ (forall j, diskSize p' j = diskSize p j)
    /\ (forall j, diskLocation p' j = diskLocation p j)
    /\ cache_filled p p'.
Proof.
  intros Hwf%wf_WF.
  destruct (FindSlot_spec p minSize Hwf) as (r & p' & Hrun & Hf & _).
  assert (Data p' = Data p) as Hd by apply Hf.
  exists r, p'. split_and!; try done.
  - by apply diskCount_data.
  - intros j. by apply diskSize_data.
  - intros j. by apply diskLocation_data.
Qed.

End Properties.

(** ** Further properties of the page *)

Section MoreProperties.

Context {L : Layout}.

Local Open Scope page_scope.

(** *** The search for a slot, with the order of the rows *)

Lemma FindSlot_loop_first p0 minSize :
  WF p0 ->
  forall (n : nat) (i : Z) (st : Z * Z * Z) (p : FreePhysicalSlotPage),
    cache_filled p0 p -> 0 <= i -> i + Z.of_nat n = maxSlots p0 ->
    FindSlot_inv_first p0 minSize i st ->
    exists t p',
      FindSlot_loop n minSize i st p = Some (t, p')
      /\ cache_filled p0 p'
      /\ match t with
         | Return r => first_fit p0 minSize r
         | Next st' => FindSlot_inv_first p0 minSize (maxSlots p0) st'
         end.
Proof.
  intros Hwf0 n. induction n as [|n IH]; intros i st p Hf Hi Hn Hinv.
  - exists (Next st), p. split; [done|]. split; [done|].
    by replace (maxSlots p0) with i by lia.
  - pose proof (cache_filled_WF _ _ Hwf0 Hf) as Hwf.
    pose proof (maxSlots_range p0 Hwf0) as Hmr.
    destruct Hf as (Hd & Hm & Hrest).
    assert (0 <= i < maxSlots p) as Hi' by lia.
    destruct (FreeSlotSize_filled p i Hwf Hi')
      as (s & p1 & Hrun & Hs & Hsr & Hf1 & _).
    rewrite (diskSize_data p0 p) in Hs by done.
    assert (cache_filled p0 p1) as Hf01.
    { apply (cache_filled_trans p0 p p1); [|done]. by split. }
    destruct st as [[bestSlot bestSlotWaste] maxSize].
    destruct Hinv as ((Hmax & Hbelow & Hbest) & Hfirst).
    cbn [fst snd] in Hfirst.
    set (maxSize' := if s >? maxSize then s else maxSize).
    assert (maxSize' = maxSizeBelow p0 (Z.to_nat (i + 1))) as Hmax'.
    { replace (Z.to_nat (i + 1)) with (S (Z.to_nat i)) by lia.
      cbn [maxSizeBelow]. rewrite Z2Nat.id by lia. rewrite Hs, <- Hmax.
      cbn [default from_option id]. unfold maxSize'.
      destruct (s >? maxSize) eqn:E.
      - apply Z.gtb_lt in E. lia.
      - rewrite Z.gtb_ltb in E. apply Z.ltb_ge in E. lia. }
    pose proof (u32_range (s - minSize)) as Hw. fold (wasteOf minSize s) in Hw.
    assert (forall st',
      FindSlot_inv_first p0 minSize (i + 1) st' ->
      exists t p',
        FindSlot_loop n minSize (u16 (i + 1)) st' p1 = Some (t, p')
        /\ cache_filled p0 p'
        /\ match t with
           | Return r => first_fit p0 minSize r
           | Next st'' => FindSlot_inv_first p0 minSize (maxSlots p0) st''
           end) as Hgo.
    { intros st' Hst'. rewrite u16_small by lia.
      apply IH; [done | lia | lia | done]. }
    cbn [FindSlot_loop].
    rewrite (bind_Some _ _ _ _ _
               (FindSlot_body_run minSize i bestSlot bestSlotWaste maxSize
                  p s p1 Hrun)).
    cbv zeta. fold maxSize'.
    destruct (wasteOf minSize s <? OPTIMAL_WASTE_MARGIN) eqn:Eopt.
    + apply Z.ltb_lt in Eopt. exists (Return i), p1.
      split; [done|]. split; [done|].
      split; [lia|]. split; [by exists s|].
      intros j s' Hj Hs'. by apply (Hbelow j s').
    + apply Z.ltb_ge in Eopt.
      destruct (bestSlotWaste >? wasteOf minSize s) eqn:Ebest.
      * apply Z.gtb_lt in Ebest.
        apply (Hgo (i, wasteOf minSize s, maxSize')).
        split.
        { split; [done|]. split.
          { intros j s' Hj Hs'.
            destruct (decide (j = i)) as [->|Hne].
            - assert (s' = s) as -> by congruence. lia.
            - destruct (Hbelow j s') as [? ?]; [lia | done | lia]. }
          right. split; [lia|]. split.
          { destruct Hbest as [[_ ->]|(_ & ? & _)]; lia. }
          by exists s. }
        cbn [fst snd]. intros j s' Hj Hs'.
        destruct (Hbelow j s') as [? ?]; [lia | done | lia].
      * rewrite Z.gtb_ltb in Ebest. apply Z.ltb_ge in Ebest.
        apply (Hgo (bestSlot, bestSlotWaste, maxSize')).
        split; [|done].
        split; [done|]. split.
        { intros j s' Hj Hs'.
          destruct (decide (j = i)) as [->|Hne].
          - assert (s' = s) as -> by congruence. lia.
          - apply (Hbelow j s'); [lia | done]. }
        destruct Hbest as [?|(? & ? & ?)]; [by left|right].
        split; [lia|]. done.
Qed.

(** The result of [FindSlot]: the first row within the optimal margin;
    or, without such a row, the first of the rows of least waste when
    that waste is acceptable; or the largest size negated. *)
Lemma FindSlot_spec_first p minSize :
  WF p ->
  exists r p',
    FindSlot minSize p = Some (r, p')
    /\ cache_filled p p'
    /\ (first_fit p minSize r
        \/ best_fit_first p minSize r
        \/ (no_fit p minSize /\ r = - maxRowSize p)).
Proof.
  intros Hwf. pose proof (maxSlots_range p Hwf) as Hmr.
  pose proof (maxAcceptableWaste_range p Hwf) as Hacc.
  destruct (FindSlot_loop_first p minSize Hwf (Z.to_nat (maxSlots p)) 0
              (-1, u32 (maxAcceptableWaste p + 1), 0) p)
    as (t & p' & Hloop & Hf & Hres).
  { apply cache_filled_refl. }
  { lia. }
  { lia. }
  { split.
    - split; [done|]. split; [intros j s Hj; lia|]. left.
      split; [done|]. apply u32_small. lia.
    - cbn [fst snd]. intros j s Hj. lia. }
  unfold FindSlot. rewrite (bind_Some _ _ _ _ _ Hloop).
  destruct t as [[[bestSlot bestSlotWaste] maxSize]|r].
  - destruct Hres as ((Hmax & Hbelow & Hbest) & Hfirst).
    cbn [fst snd] in Hfirst.
    assert (maxAcceptableWaste p' = maxAcceptableWaste p) as Ha by apply Hf.
    rewrite Ha.
    destruct (negb (bestSlot =? -1)
              && ((bestSlotWaste <? maxAcceptableWaste p)
                  && (bestSlotWaste <? MAX_AVAILABLE_SIZE_DIFFERENCE)))
      eqn:E.
    + exists bestSlot, p'. split; [done|]. split; [done|]. right. left.
      apply andb_true_iff in E as [E1 E2].
      apply andb_true_iff in E2 as [E2 E3].
      apply negb_true_iff, Z.eqb_neq in E1.
      apply Z.ltb_lt in E2. apply Z.ltb_lt in E3.
      destruct Hbest as [[? _]|(Hb & _ & s & Hs & Hw)]; [done|].
      split.
      * split; [done|]. exists s. rewrite <- Hw.
        split; [done|]. split; [done|]. split; [done|].
        intros j s' Hj Hs'. by apply (Hbelow j s').
      * intros j s' sr Hj Hs' Hsr.
        assert (sr = s) as -> by congruence. rewrite <- Hw.
        by apply (Hfirst j s').
    + exists (- maxSize), p'. split; [done|]. split; [done|]. right. right.
      split; [|by rewrite Hmax].
      intros j s Hj Hs. destruct (Hbelow j s Hj Hs) as [H1 H2].
      split; [done|]. intros [H3 H4].
      apply andb_false_iff in E as [E|E].
      * apply negb_false_iff, Z.eqb_eq in E.
        destruct Hbest as [[_ ->]|(? & _)]; lia.
      * apply andb_false_iff in E as [E|E]; apply Z.ltb_ge in E; lia.
  - exists r, p'. split; [done|]. split; [done|]. by left.
Qed.

(** *** The place of the rows *)

(** X1.  For a layout that passes [layout_ok] and a row number whose
    product with [SLOT_INFO_SIZE] fits in 16 bits, [offsetToSlotinfo]
    gives back the row number [slotinfoToOffset] was given. *)
Theorem slotinfo_offset_round_trip i :
  layout_ok = true -> 0 <= i -> i * SLOT_INFO_SIZE < 65536 ->
  offsetToSlotinfo (slotinfoToOffset i) = i.
Proof.
  intros HL%layout_ok_spec Hi Hfit.
  unfold offsetToSlotinfo, slotinfoToOffset, u16.
  rewrite Zminus_mod_idemp_l.
  replace (OFFSET_DATA + i * SLOT_INFO_SIZE - OFFSET_DATA)
    with (i * SLOT_INFO_SIZE) by ring.
  unfold SLOT_INFO_SIZE, SIZE_INFO_SIZE in *.
  assert (0 <= i * (LOCATION_SIZE + 4)) by nia.
  rewrite Z.mod_small by lia. apply Z.div_mul. lia.
Qed.

(** X2.  On a well formed page the rows lie behind the header and within
    the record, and a row ends where the next row begins or before. *)
Theorem rows_apart p i j :
  wf p = true -> 0 <= i -> i < j -> j < maxSlots p ->
  OFFSET_DATA <= slotinfoToOffset i
  /\ slotinfoToOffset i + SLOT_INFO_SIZE <= slotinfoToOffset j
  /\ slotinfoToOffset j + SLOT_INFO_SIZE <= Z.of_nat (length (Data p)).
Proof.
  intros Hwf%wf_WF Hi Hij Hj.
  pose proof (layout_ok_spec (wf_layout p Hwf)) as HL.
  rewrite !(slotinfoToOffset_row p) by (done || lia).
  destruct (rows_fit p j Hwf ltac:(lia)) as (_ & Hfit & _).
  pose proof (rowPos_apart i j (wf_layout p Hwf) Hij).
  split; [|done].
  unfold rowPos, SLOT_INFO_SIZE, SIZE_INFO_SIZE. nia.
Qed.

(** *** The constructor *)

(** X3.  [NewFreePhysicalSlotPage] on a record of bytes that carries the
    header of the page, holds the row count and is not longer than 65536
    bytes returns a well formed page over that record, with
    [(len - OFFSET_DATA) / SLOT_INFO_SIZE] rows, an acceptable waste of a
    quarter of the record and a cache of zeros. *)
Theorem NewFreePhysicalSlotPage_page record :
  layout_ok = true -> forallb is_byteb record = true ->
  OFFSET_DATA <= Z.of_nat (length record) <= 65536 ->
  Rec.ReadInt16 record 0 = Some FREE_PHYSICAL_SLOT_PAGE_HEADER ->
  exists p,
    NewFreePhysicalSlotPage record = Some p
    /\ wf p = true /\ Data p = record
    /\ maxSlots p = (Z.of_nat (length record) - OFFSET_DATA) / SLOT_INFO_SIZE
    /\ maxAcceptableWaste p = Z.of_nat (length record) / 4
    /\ sizeCache p = replicate (Z.to_nat (maxSlots p)) 0.
Proof.
  intros HL Hb%forallb_is_byteb Hlen Hmagic.
  pose proof (layout_ok_spec HL) as HL'.
  assert (0 < SLOT_INFO_SIZE) as Hsis
    by (unfold SLOT_INFO_SIZE, SIZE_INFO_SIZE; lia).
  assert (exists p, NewFreePhysicalSlotPage record = Some p
                    /\ sizeCache p = replicate (Z.to_nat (maxSlots p)) 0)
    as (p & Hnew & Hcache).
  { unfold NewFreePhysicalSlotPage, checkFreePhysicalSlotPageMagic.
    rewrite Hmagic, Z.eqb_refl.
    rewrite !Z.quot_div_nonneg by lia.
    set (m := (Z.of_nat (length record) - OFFSET_DATA) / SLOT_INFO_SIZE).
    assert (0 <= m < 65536) as Hm.
    { split; [apply Z.div_pos; lia|].
      apply Z.div_lt_upper_bound; [lia|].
      unfold OFFSET_DATA, OFFSET_COUNT, SIZE_SHORT in *. nia. }
    destruct (m <? 0) eqn:E; [apply Z.ltb_lt in E; lia|].
    eexists. split; [done|]. cbn [sizeCache maxSlots].
    by rewrite u16_small. }
  destruct (NewFreePhysicalSlotPage_wf record p HL Hb Hlen Hnew)
    as (Hwf & Hd & _).
  exists p. split_and!; try done.
  - apply wf_WF in Hwf. rewrite (wf_maxSlots p Hwf). by rewrite Hd.
  - apply wf_WF in Hwf. rewrite (wf_waste p Hwf). by rewrite Hd.
Qed.

(** X4.  [NewFreePhysicalSlotPage] panics on a record whose first two
    bytes are not the header of the page, and on a record that is shorter
    than the header by a row or more. *)
Theorem NewFreePhysicalSlotPage_panics record :
  layout_ok = true ->
  Rec.ReadInt16 record 0 <> Some FREE_PHYSICAL_SLOT_PAGE_HEADER
  \/ Z.of_nat (length record) + SLOT_INFO_SIZE <= OFFSET_DATA ->
  NewFreePhysicalSlotPage record = None.
Proof.
  intros HL%layout_ok_spec Hbad.
  unfold NewFreePhysicalSlotPage, checkFreePhysicalSlotPageMagic.
  destruct (Rec.ReadInt16 record 0) as [magic|] eqn:Hm; [|done].
  destruct (magic =? FREE_PHYSICAL_SLOT_PAGE_HEADER) eqn:E; [|done].
  apply Z.eqb_eq in E. subst magic.
  destruct Hbad as [?|Hshort]; [done|].
  assert (0 < SLOT_INFO_SIZE) as Hsis
    by (unfold SLOT_INFO_SIZE, SIZE_INFO_SIZE; lia).
  set (a := Z.of_nat (length record) - OFFSET_DATA).
  assert (Z.quot a SLOT_INFO_SIZE < 0) as Hneg.
  { assert (a <= - SLOT_INFO_SIZE) by (unfold a; lia).
    rewrite <- (Z.opp_involutive a), Z.quot_opp_l by lia.
    rewrite Z.quot_div_nonneg by lia.
    assert (1 <= - a / SLOT_INFO_SIZE); [|lia].
    apply Z.div_le_lower_bound; lia. }
  apply Z.ltb_lt in Hneg. by rewrite Hneg.
Qed.

(** *** Sequences of operations *)

(** X5.  On a well formed page a sequence of operations with valid
    arguments runs without a panic and ends in a well formed page of the
    same number of rows, the same acceptable waste and a record of the
    same length. *)
Theorem run_ops_valid p os :
  wf p = true -> forallb (op_valid (maxSlots p)) os = true ->
  exists p',
    run_ops os p = Some p' /\ wf p' = true
    /\ maxSlots p' = maxSlots p
    /\ maxAcceptableWaste p' = maxAcceptableWaste p
    /\ length (Data p') = length (Data p).
Proof.
  intros Hwf%wf_WF. revert p Hwf.
  induction os as [|o os IH]; intros p Hwf Hall.
  - exists p. split_and!; try done. by apply wf_WF.
  - cbn [forallb] in Hall. apply andb_true_iff in Hall as [Hv Hall].
    destruct (run_op_valid p o Hwf Hv) as (p1 & Hrun & Hwf1 & Hk).
    destruct Hk as (Hm & Ha & Hl & _).
    destruct (IH p1 Hwf1) as (p' & Hrun' & Hwf' & Hm' & Ha' & Hl').
    { by rewrite Hm. }
    exists p'. cbn [run_ops]. rewrite Hrun.
    split_and!; try done; congruence.
Qed.

(** *** Sizes *)

(** X6.  On a well formed page [FreeSlotSize] at the offset of a row
    returns the size the record holds for the row and leaves the record
    as it is; called again, it returns the same size and leaves the page
    as the first call left it. *)
Theorem FreeSlotSize_stable p i :
  wf p = true -> 0 <= i < maxSlots p ->
  exists s p1,
    diskSize p i = Some s
    /\ FreeSlotSize (slotinfoToOffset i) p = Some (s, p1)
    /\ Data p1 = Data p
    /\ FreeSlotSize (slotinfoToOffset i) p1 = Some (s, p1).
Proof.
  intros Hwf%wf_WF Hi.
  destruct (FreeSlotSize_spec p i Hwf Hi) as (s & Hs & _ & Hrun).
  set (p1 := with_cache p (<[Z.to_nat i := s]> (sizeCache p))) in *.
  assert (WF p1) as Hwf1 by (by apply WF_fill).
  exists s, p1. split_and!; try done.
  destruct (FreeSlotSize_spec p1 i Hwf1 Hi) as (s1 & Hs1 & _ & Hrun1).
  rewrite (diskSize_data p p1) in Hs1 by done.
  assert (s1 = s) as -> by congruence.
  rewrite Hrun1. do 2 f_equal. unfold p1, with_cache. cbn.
  by rewrite list_insert_insert_eq.
Qed.


(** X8.  On a well formed page [SetFreeSlotSize] at the offset of a row
    sets the size of that row on the record and keeps the page well
    formed; the sizes of the other rows, the locations of all rows and the
    row count are unchanged. *)
Theorem SetFreeSlotSize_frame p i s :
  wf p = true -> 0 <= i < maxSlots p -> 0 <= s < 4294967296 ->
  exists p',
    SetFreeSlotSize (slotinfoToOffset i) s p = Some (tt, p')
    /\ wf p' = true
    /\ diskSize p' i = Some s
    /\ (forall j, 0 <= j < maxSlots p -> j <> i ->
                  diskSize p' j = diskSize p j)
    /\ (forall j, 0 <= j < maxSlots p -> diskLocation p' j = diskLocation p j)
    /\ diskCount p' = diskCount p.
Proof.
  intros Hwf%wf_WF Hi Hs.
  destruct (SetFreeSlotSize_spec p i s Hwf Hi Hs)
    as (p' & Hrun & Hwf' & Hsz & (_ & _ & _ & Hos & Hol & Hc) & _).
  exists p'. split_and!; try done.
  - by apply wf_WF.
  - intros j Hj Hne. apply Hos; [done | by right].
  - intros j Hj. apply Hol; [done | by left].
  - by apply Hc.
Qed.

(** *** Claim and release without their preconditions *)

Lemma usedBelow_full p n :
  (forall j, 0 <= j < Z.of_nat n -> rowInUse p j = true) ->
  usedBelow p n = Z.of_nat n.
Proof.
  induction n as [|n IH]; intros Hall; [done|].
  cbn [usedBelow]. rewrite IH by (intros j Hj; apply Hall; lia).
  rewrite Hall by lia. lia.
Qed.

Lemma count_ok_same p q :
  same_record p q -> count_ok p = count_ok q.
Proof.
  intros (Hd & Hm & _). unfold count_ok, usedRows.
  rewrite (diskCount_data q p) by done. rewrite Hm.
  rewrite (usedBelow_ext q p); [done|].
  intros j _. by apply diskSize_data.
Qed.

Lemma cache_filled_same p p' : cache_filled p p' -> same_record p' p.
Proof. intros (Hd & Hm & Ha & _). by split_and!. Qed.

(** X9.  On a well formed page [AllocateSlotInfo] and [ReleaseSlotInfo]
    on a row of the page return the offset of the row and keep the page
    well formed, whatever the row held; the sizes and the locations of
    the other rows are unchanged. *)
Theorem claim_release_frame p i :
  wf p = true -> 0 <= i < maxSlots p ->
  exists p1 p2,
    AllocateSlotInfo i p = Some (slotinfoToOffset i, p1)
    /\ ReleaseSlotInfo i p = Some (slotinfoToOffset i, p2)
    /\ wf p1 = true /\ wf p2 = true
    /\ forall j, 0 <= j < maxSlots p -> j <> i ->
         (diskSize p1 j = diskSize p j /\ diskLocation p1 j = diskLocation p j)
         /\ (diskSize p2 j = diskSize p j
             /\ diskLocation p2 j = diskLocation p j).
Proof.
  intros Hwf%wf_WF Hi.
  destruct (AllocateSlotInfo_spec p i Hwf Hi)
    as (c1 & p1 & _ & _ & Hrun1 & Hwf1 & _ & _ & _ & Hk1 & _).
  destruct (ReleaseSlotInfo_spec p i Hwf Hi)
    as (c2 & p2 & _ & _ & Hrun2 & Hwf2 & _ & _ & _ & Hk2 & _).
  exists p1, p2. split_and!; try done; try (by apply wf_WF).
  intros j Hj Hne.
  destruct Hk1 as (_ & _ & _ & Hs1 & Hl1 & _).
  destruct Hk2 as (_ & _ & _ & Hs2 & Hl2 & _).
  split_and!; [apply Hs1 | apply Hl1 | apply Hs2 | apply Hl2];
    try done; by right.
Qed.

(** X10.  [AllocateSlotInfo] does not check that the row is vacant: on a
    well formed page whose row count is the number of rows in use, a call
    on a row in use overwrites the size of the row by 1 and leaves the
    row count one above the number of rows in use. *)
Theorem AllocateSlotInfo_row_in_use p i :
  wf p = true -> count_ok p = true ->
  0 <= i < maxSlots p -> rowInUse p i = true ->
  exists p',
    AllocateSlotInfo i p = Some (slotinfoToOffset i, p')
    /\ diskSize p' i = Some 1
    /\ usedRows p' = usedRows p
    /\ diskCount p' = Some (usedRows p' + 1)
    /\ count_ok p' = false.
Proof.
  intros Hwf%wf_WF Hcnt%count_ok_spec Hi Huse.
  pose proof (maxSlots_range p Hwf) as Hmr.
  destruct (AllocateSlotInfo_spec p i Hwf Hi)
    as (c & p' & Hc & _ & Hrun & Hwf' & Hsz & _ & Hc' & Hk & _).
  assert (c = usedRows p) as -> by congruence.
  assert (usedRows p' = usedRows p) as Hused.
  { rewrite (usedRows_keeps p p' i Hwf Hi Hk), Huse.
    unfold rowInUse. rewrite Hsz. cbn. lia. }
  pose proof (usedBelow_range p (Z.to_nat (maxSlots p))) as Hr.
  fold (usedRows p) in Hr.
  rewrite u16_small in Hc' by lia.
  exists p'. split_and!; try done.
  - by rewrite Hused.
  - unfold count_ok. rewrite Hc', Hused. apply Z.eqb_neq. lia.
Qed.

(** X11.  [ReleaseSlotInfo] does not check that the row is in use: on a
    well formed page whose row count is the number of rows in use, a call
    on a vacant row leaves the rows as they were and the row count at the
    number of rows in use less one, modulo 2^16. *)
Theorem ReleaseSlotInfo_row_vacant p i :
  wf p = true -> count_ok p = true ->
  0 <= i < maxSlots p -> rowInUse p i = false ->
  exists p',
    ReleaseSlotInfo i p = Some (slotinfoToOffset i, p')
    /\ (forall j, 0 <= j < maxSlots p -> diskSize p' j = diskSize p j)
    /\ usedRows p' = usedRows p
    /\ diskCount p' = Some (u16 (usedRows p' - 1))
    /\ count_ok p' = false.
Proof.
  intros Hwf%wf_WF Hcnt%count_ok_spec Hi Hvac.
  pose proof (maxSlots_range p Hwf) as Hmr.
  destruct (ReleaseSlotInfo_spec p i Hwf Hi)
    as (c & p' & Hc & _ & Hrun & Hwf' & Hsz & _ & Hc' & Hk & _).
  assert (c = usedRows p) as -> by congruence.
  assert (diskSize p i = Some 0) as Hzero.
  { destruct (diskSize_Some p i Hwf Hi) as (s & Hs & _).
    unfold rowInUse in Hvac. rewrite Hs in Hvac.
    apply negb_false_iff, Z.eqb_eq in Hvac. by subst s. }
  assert (usedRows p' = usedRows p) as Hused.
  { rewrite (usedRows_keeps p p' i Hwf Hi Hk), Hvac.
    unfold rowInUse. rewrite Hsz. cbn. lia. }
  pose proof (usedBelow_range p (Z.to_nat (maxSlots p))) as Hr.
  fold (usedRows p) in Hr.
  exists p'. split_and!; try done.
  - intros j Hj. destruct (decide (j = i)) as [->|Hne]; [congruence|].
    destruct Hk as (_ & _ & _ & Hs & _). apply Hs; [done | by right].
  - by rewrite Hused.
  - unfold count_ok. rewrite Hc', Hused. apply Z.eqb_neq.
    destruct (decide (usedRows p = 0)) as [->|Hne]; [done|].
    rewrite u16_small by lia. lia.
Qed.

(** *** The search for a vacant row and the row count *)

(** X12.  On a well formed page whose row count is the number of rows in
    use, [FreeSlotCount] is at most [MaxSlots], and [FirstFreeSlotInfo]
    returns -1 exactly when the two are equal. *)
Theorem FirstFreeSlotInfo_full p :
  wf p = true -> count_ok p = true ->
  exists r p' c,
    FirstFreeSlotInfo p = Some (r, p')
    /\ FreeSlotCount p = Some (c, p)
    /\ 0 <= c <= maxSlots p
    /\ (r = -1 <-> c = maxSlots p).
Proof.
  intros Hwf%wf_WF Hcnt%count_ok_spec.
  pose proof (maxSlots_range p Hwf) as Hmr.
  destruct (FirstFreeSlotInfo_spec p Hwf) as (r & p' & Hrun & _ & Hres).
  destruct (FreeSlotCount_spec p Hwf) as (c & Hc & _ & Hcount).
  assert (c = usedRows p) as -> by congruence.
  pose proof (usedBelow_range p (Z.to_nat (maxSlots p))) as Hr.
  fold (usedRows p) in Hr.
  exists r, p', (usedRows p). split_and!; try done; try lia.
  destruct Hres as [(Hr0 & Hz & _)|(-> & Hall)].
  - assert (rowInUse p r = false) as Hv by (unfold rowInUse; by rewrite Hz).
    pose proof (usedBelow_vacant p (Z.to_nat (maxSlots p)) r
                  ltac:(lia) Hv) as Hub.
    fold (usedRows p) in Hub. lia.
  - split; [intros _|done]. unfold usedRows.
    rewrite usedBelow_full by (intros j Hj; apply Hall; lia). lia.
Qed.

(** X13.  On a well formed page whose row count is the number of rows in
    use and that has a vacant row, [FirstFreeSlotInfo] returns a row;
    after [AllocateSlotInfo] on that row the row count is again the
    number of rows in use, and [FirstFreeSlotInfo] returns a later row or
    -1. *)
Theorem FirstFreeSlotInfo_then_AllocateSlotInfo p j :
  wf p = true -> count_ok p = true ->
  0 <= j < maxSlots p -> diskSize p j = Some 0 ->
  exists r p1 p2 r' p3,
    FirstFreeSlotInfo p = Some (r, p1) /\ 0 <= r <= j
    /\ AllocateSlotInfo r p1 = Some (slotinfoToOffset r, p2)
    /\ wf p2 = true /\ count_ok p2 = true
    /\ FirstFreeSlotInfo p2 = Some (r', p3)
    /\ (r' = -1 \/ r < r').
Proof.
  intros Hwf%wf_WF Hcnt Hj Hvac.
  destruct (FirstFreeSlotInfo_spec p Hwf) as (r & p1 & Hrun & Hf & Hres).
  assert (rowInUse p j = false) as Hjv by (unfold rowInUse; by rewrite Hvac).
  destruct Hres as [(Hr & Hz & Hbelow)|(_ & Hall)];
    [|rewrite Hall in Hjv by done; done].
  assert (r <= j) as Hrj.
  { destruct (Z.le_gt_cases r j) as [?|Hgt]; [done|].
    rewrite Hbelow in Hjv by lia. done. }
  pose proof (cache_filled_WF p p1 Hwf Hf) as Hwf1.
  pose proof (cache_filled_same p p1 Hf) as Hsame.
  assert (maxSlots p1 = maxSlots p) as Hm1 by apply Hf.
  assert (forall k, diskSize p1 k = diskSize p k) as Hd1
    by (intros k; apply diskSize_data, Hf).
  assert (count_ok p1 = true) as Hcnt1
    by (by rewrite (count_ok_same p1 p Hsame)).
  destruct (AllocateSlotInfo_spec p1 r Hwf1 ltac:(lia))
    as (c & p2 & _ & _ & Hrun2 & Hwf2 & Hsz2 & _ & _ & Hk2 & _).
  destruct (run_op_count p1 (OpAllocateSlotInfo r) Hwf1 Hcnt1)
    as (p2' & Hrun2' & _ & Hcnt2 & _).
  { unfold vacancy_pre, claim_release_pre. cbn [op_valid].
    unfold rowInUse. rewrite Hd1, Hz. cbn.
    rewrite !andb_true_r. apply andb_true_iff. split; lia. }
  cbn [run_op] in Hrun2'. unfold after in Hrun2'. rewrite Hrun2 in Hrun2'.
  injection Hrun2' as <-.
  destruct (FirstFreeSlotInfo_spec p2 Hwf2) as (r' & p3 & Hrun3 & _ & Hres3).
  exists r, p1, p2, r', p3. split_and!; try done; try lia.
  { by apply wf_WF. }
  destruct Hres3 as [(Hr' & Hz' & _)|(-> & _)]; [right|by left].
  destruct (Z.lt_trichotomy r' r) as [Hlt|[->|?]]; [| congruence | done].
  destruct Hk2 as (Hm2 & _ & _ & Hs2 & _).
  rewrite Hs2, Hd1 in Hz' by (try lia; by right).
  specialize (Hbelow r' ltac:(lia)). unfold rowInUse in Hbelow.
  rewrite Hz' in Hbelow. done.
Qed.

(** X14.  On a well formed page, after [ReleaseSlotInfo] on a row
    [FreeSlotSize] of the row is 0 and [FirstFreeSlotInfo] returns that
    row or a row in front of it. *)
Theorem ReleaseSlotInfo_frees_row p i :
  wf p = true -> 0 <= i < maxSlots p ->
  exists p1 p2 r p3,
    ReleaseSlotInfo i p = Some (slotinfoToOffset i, p1)
    /\ FreeSlotSize (slotinfoToOffset i) p1 = Some (0, p2)
    /\ FirstFreeSlotInfo p1 = Some (r, p3)
    /\ 0 <= r <= i.
Proof.
  intros Hwf%wf_WF Hi.
  destruct (ReleaseSlotInfo_spec p i Hwf Hi)
    as (c & p1 & _ & _ & Hrun & Hwf1 & Hsz & _ & _ & Hk & _).
  assert (maxSlots p1 = maxSlots p) as Hm by apply Hk.
  destruct (FreeSlotSize_filled p1 i Hwf1 ltac:(lia))
    as (s & p2 & Hrun2 & Hs & _).
  assert (s = 0) as -> by congruence.
  destruct (FirstFreeSlotInfo_spec p1 Hwf1) as (r & p3 & Hrun3 & _ & Hres).
  exists p1, p2, r, p3. split_and!; try done.
  - destruct Hres as [(? & _)|(-> & Hall)]; [lia|].
    specialize (Hall i ltac:(lia)). unfold rowInUse in Hall.
    rewrite Hsz in Hall. done.
  - destruct Hres as [(Hr & _ & Hbelow)|(-> & Hall)].
    + destruct (Z.le_gt_cases r i) as [?|Hgt]; [done|].
      specialize (Hbelow i ltac:(lia)). unfold rowInUse in Hbelow.
      rewrite Hsz in Hbelow. done.
    + specialize (Hall i ltac:(lia)). unfold rowInUse in Hall.
      rewrite Hsz in Hall. done.
Qed.

(** *** The result of the search for a slot *)

Lemma maxSizeBelow_ext p q n :
  (forall j, diskSize p j = diskSize q j) ->
  maxSizeBelow p n = maxSizeBelow q n.
Proof.
  intros H. induction n as [|n IH]; [done|].
  cbn [maxSizeBelow]. by rewrite IH, H.
Qed.

Lemma maxSizeBelow_vacant p n :
  (forall j, 0 <= j < Z.of_nat n -> diskSize p j = Some 0) ->
  maxSizeBelow p n = 0.
Proof.
  induction n as [|n IH]; intros H; [done|].
  cbn [maxSizeBelow]. rewrite IH by (intros j Hj; apply H; lia).
  rewrite H by lia. done.
Qed.

Lemma maxRowSize_range p : WF p -> 0 <= maxRowSize p < 4294967296.
Proof.
  intros Hwf. pose proof (maxSizeBelow_nonneg p (Z.to_nat (maxSlots p))) as Hn.
  fold (maxRowSize p) in Hn. split; [done|].
  destruct (decide (maxRowSize p = 0)) as [->|Hne]; [done|].
  destruct (maxSizeBelow_attained p (Z.to_nat (maxSlots p))) as (j & Hj & Hs).
  { fold (maxRowSize p). lia. }
  fold (maxRowSize p) in Hs.
  destruct (diskSize_Some p j Hwf ltac:(lia)) as (s & Hs' & Hr).
  assert (s = maxRowSize p) as <- by congruence. lia.
Qed.

(** A check of the sizes of all rows by evaluation. *)
Lemma rows_checked p (P : Z -> bool) :
  forallb (fun k => P (default 0 (diskSize p (Z.of_nat k))))
    (seq 0 (Z.to_nat (maxSlots p))) = true ->
  forall j s, 0 <= j < maxSlots p -> diskSize p j = Some s -> P s = true.
Proof.
  intros Hall j s Hj Hs. rewrite forallb_forall in Hall.
  specialize (Hall (Z.to_nat j)). rewrite Z2Nat.id, Hs in Hall by lia.
  apply Hall, in_seq. lia.
Qed.

(** The three results of [FindSlot] exclude each other, and each names
    one value. *)
Lemma FindSlot_result_unique p minSize r1 r2 :
  first_fit p minSize r1 \/ best_fit_first p minSize r1
  \/ (no_fit p minSize /\ r1 = - maxRowSize p) ->
  first_fit p minSize r2 \/ best_fit_first p minSize r2
  \/ (no_fit p minSize /\ r2 = - maxRowSize p) ->
  r1 = r2.
Proof.
  assert (forall a b, first_fit p minSize a -> first_fit p minSize b ->
                      ~ a < b) as Hff.
  { intros a b (Ha & (s & Hs & Hw) & _) (Hb & _ & Hbelow) Hlt.
    specialize (Hbelow a s ltac:(lia) Hs). lia. }
  assert (forall a b, first_fit p minSize a -> best_fit_first p minSize b ->
                      False) as Hfb.
  { intros a b (Ha & (s & Hs & Hw) & _) ((_ & sr & _ & _ & _ & Hall) & _).
    destruct (Hall a s Ha Hs). lia. }
  assert (forall a, first_fit p minSize a -> no_fit p minSize -> False)
    as Hfn.
  { intros a (Ha & (s & Hs & Hw) & _) Hno. destruct (Hno a s Ha Hs). lia. }
  assert (forall a b, best_fit_first p minSize a ->
                      best_fit_first p minSize b -> ~ a < b) as Hbb.
  { intros a b ((Ha & sa & Hsa & _ & _ & Halla) & _)
             ((Hb & sb & Hsb & _) & Hfirst) Hlt.
    specialize (Hfirst a sa sb ltac:(lia) Hsa Hsb).
    destruct (Halla b sb Hb Hsb). lia. }
  assert (forall a, best_fit_first p minSize a -> no_fit p minSize -> False)
    as Hbn.
  { intros a ((Ha & sa & Hsa & H1 & H2 & _) & _) Hno.
    destruct (Hno a sa Ha Hsa) as [_ Hn]. apply Hn. done. }
  intros [H1|[H1|[H1 ->]]] [H2|[H2|[H2 ->]]]; try done;
    try (exfalso; eauto; fail).
  - destruct (Z.lt_trichotomy r1 r2) as [Hlt|[?|Hlt]]; [|done|].
    + exfalso. exact (Hff r1 r2 H1 H2 Hlt).
    + exfalso. exact (Hff r2 r1 H2 H1 Hlt).
  - destruct (Z.lt_trichotomy r1 r2) as [Hlt|[?|Hlt]]; [|done|].
    + exfalso. exact (Hbb r1 r2 H1 H2 Hlt).
    + exfalso. exact (Hbb r2 r1 H2 H1 Hlt).
Qed.

Lemma FindSlot_result_same p q minSize r :
  same_record p q ->
  first_fit p minSize r \/ best_fit_first p minSize r
  \/ (no_fit p minSize /\ r = - maxRowSize p) ->
  first_fit q minSize r \/ best_fit_first q minSize r
  \/ (no_fit q minSize /\ r = - maxRowSize q).
Proof.
  intros (Hd & Hm & Ha).
  assert (forall j, diskSize p j = diskSize q j) as Hds
    by (intros j; by apply diskSize_data).
  intros [Hf|[Hb|[Hn ->]]].
  - left. destruct Hf as (Hr & (s & Hs & Hw) & Hbelow).
    split; [lia|]. split; [exists s; by rewrite <- Hds|].
    intros j s' Hj Hs'. apply (Hbelow j s' Hj). by rewrite Hds.
  - right. left. destruct Hb as ((Hr & sr & Hsr & H1 & H2 & Hall) & Hfirst).
    split.
    + split; [lia|]. exists sr. rewrite <- Hds, <- Ha.
      split_and!; try done.
      intros j s Hj Hs. apply (Hall j s); [lia | by rewrite Hds].
    + intros j s sr' Hj Hs Hsr'.
      apply (Hfirst j s sr' Hj); by rewrite Hds.
  - right. right. split.
    + intros j s Hj Hs. rewrite <- Ha. apply (Hn j s); [lia | by rewrite Hds].
    + unfold maxRowSize. rewrite Hm. f_equal. by apply maxSizeBelow_ext.
Qed.

Lemma FindSlot_result_of_record p q minSize :
  WF p -> WF q -> same_record p q ->
  fst <$> FindSlot minSize p = fst <$> FindSlot minSize q.
Proof.
  intros Hwfp Hwfq Hsame.
  destruct (FindSlot_spec_first p minSize Hwfp) as (r1 & p1 & Hr1 & _ & H1).
  destruct (FindSlot_spec_first q minSize Hwfq) as (r2 & q1 & Hr2 & _ & H2).
  rewrite Hr1, Hr2. cbn. do 2 f_equal.
  apply (FindSlot_result_unique q minSize); [|done].
  by apply (FindSlot_result_same p q).
Qed.

(** X15.  On a well formed page [FindSlot] returns either a row index of
    the page or a value from [-(2^32 - 1)] to 0. *)
Theorem FindSlot_result_range p minSize :
  wf p = true ->
  exists r p',
    FindSlot minSize p = Some (r, p')
    /\ (0 <= r < maxSlots p \/ - 4294967295 <= r <= 0).
Proof.
  intros Hwf%wf_WF.
  destruct (FindSlot_spec p minSize Hwf) as (r & p' & Hrun & _ & Hres).
  exists r, p'. split; [done|].
  destruct Hres as [(Hr & _)|[(Hr & _)|[_ ->]]]; [by left | by left |].
  right. pose proof (maxRowSize_range p Hwf). lia.
Qed.

(** X16.  On a well formed page, for a request below the wrap-around of
    the waste: when no row is within the optimal margin and some row fits
    with an acceptable waste, [FindSlot] returns a best fit, the first of
    the smallest rows that hold the request; its waste is below
    [maxAcceptableWaste] and below [MAX_AVAILABLE_SIZE_DIFFERENCE]. *)
Theorem FindSlot_best_fit p minSize :
  wf p = true -> 0 <= minSize ->
  minSize + OPTIMAL_WASTE_MARGIN <= 4294967296 ->
  minSize + maxAcceptableWaste p < 4294967296 ->
  (forall j, 0 <= j < maxSlots p -> ~ optimal_row p minSize j) ->
  (exists j, 0 <= j < maxSlots p /\ acceptable_row p minSize j) ->
  exists r p' sr,
    FindSlot minSize p = Some (r, p')
    /\ 0 <= r < maxSlots p
    /\ diskSize p r = Some sr /\ minSize <= sr
    /\ sr - minSize < maxAcceptableWaste p
    /\ sr - minSize < MAX_AVAILABLE_SIZE_DIFFERENCE
    /\ (forall j s, 0 <= j < maxSlots p -> diskSize p j = Some s ->
                    minSize <= s -> sr <= s)
    /\ (forall j s, 0 <= j < r -> diskSize p j = Some s ->
                    minSize <= s -> sr < s).
Proof.
  intros Hwf%wf_WF Hm Hb1 Hb2 Hnopt (j0 & Hj0 & s0 & Hs0 & Hle0 & Ha0 & Hd0).
  assert (forall j s, 0 <= j < maxSlots p -> diskSize p j = Some s ->
                      minSize <= s -> wasteOf minSize s = s - minSize)
    as Hreal.
  { intros j s Hj Hs Hle.
    destruct (diskSize_Some p j Hwf Hj) as (s' & Hs' & Hr).
    assert (s' = s) as -> by congruence. apply wasteOf_fit; lia. }
  destruct (FindSlot_spec_first p minSize Hwf) as (r & p' & Hrun & _ & Hres).
  destruct Hres as [(Hr & (s & Hs & Hw) & _)|[Hbest|[Hno _]]].
  - exfalso. apply (Hnopt r Hr).
    destruct (fit_is_real p minSize r s _ Hwf Hr Hs Hm Hb1 Hw) as [Hle Heq].
    exists s. split; [done|]. split; [done|]. by rewrite <- Heq.
  - destruct Hbest as ((Hr & sr & Hsr & Hw1 & Hw2 & Hall) & Hfirst).
    destruct (fit_is_real p minSize r sr (maxAcceptableWaste p) Hwf Hr Hsr Hm
                ltac:(lia) Hw1) as [Hle Heq].
    exists r, p', sr. split_and!; try done; try lia.
    + intros j s Hj Hs Hfit. destruct (Hall j s Hj Hs) as [_ Hmin].
      rewrite (Hreal j s Hj Hs Hfit), Heq in Hmin. lia.
    + intros j s Hj Hs Hfit.
      specialize (Hfirst j s sr Hj Hs Hsr).
      rewrite (Hreal j s ltac:(lia) Hs Hfit), Heq in Hfirst. lia.
  - exfalso. destruct (Hno j0 s0 Hj0 Hs0) as [_ Hn]. apply Hn.
    rewrite (Hreal j0 s0 Hj0 Hs0 Hle0). done.
Qed.

(** X17.  The waste is computed without a sign: on a well formed page
    whose row 0 has a size [s] more than [2^32 - 128] below the request,
    [FindSlot] returns row 0, which is too small for the request. *)
Theorem FindSlot_wrapped_waste p minSize s :
  wf p = true -> 0 < maxSlots p -> diskSize p 0 = Some s ->
  minSize < 4294967296 -> 4294967296 - OPTIMAL_WASTE_MARGIN < minSize - s ->
  exists p', FindSlot minSize p = Some (0, p') /\ s < minSize.
Proof.
  intros Hwf%wf_WF Hrows Hs Hm Hfar. unfold OPTIMAL_WASTE_MARGIN in *.
  destruct (diskSize_Some p 0 Hwf ltac:(lia)) as (s' & Hs' & Hr).
  assert (s' = s) as -> by congruence.
  assert (wasteOf minSize s < 128) as Hw
    by (rewrite wasteOf_wrap by lia; lia).
  destruct (FindSlot_spec p minSize Hwf) as (r & p' & Hrun & _ & Hres).
  assert (r = 0) as ->; [|exists p'; split; [done|lia]].
  destruct Hres as [(Hr0 & _ & Hbelow)|[Hbest|[Hno _]]].
  - destruct (decide (r = 0)) as [?|Hne]; [done|].
    specialize (Hbelow 0 s ltac:(lia) Hs).
    unfold OPTIMAL_WASTE_MARGIN in *. lia.
  - destruct Hbest as (_ & sr & _ & _ & _ & Hall).
    destruct (Hall 0 s ltac:(lia) Hs). unfold OPTIMAL_WASTE_MARGIN in *. lia.
  - destruct (Hno 0 s ltac:(lia) Hs). unfold OPTIMAL_WASTE_MARGIN in *. lia.
Qed.

(** X18.  The result of [FindSlot] does not depend on the cache: two
    well formed pages over the same record give the same result. *)
Theorem FindSlot_same_record p q minSize :
  wf p = true -> wf q = true -> same_record p q ->
  fst <$> FindSlot minSize p = fst <$> FindSlot minSize q.
Proof.
  intros Hwfp%wf_WF Hwfq%wf_WF Hsame. by apply FindSlot_result_of_record.
Qed.

(** X19.  On a well formed page a second [FindSlot] for the same request,
    on the page the first one left, returns what the first returned. *)
Theorem FindSlot_again p minSize :
  wf p = true ->
  exists r p' p'',
    FindSlot minSize p = Some (r, p')
    /\ FindSlot minSize p' = Some (r, p'').
Proof.
  intros Hwf%wf_WF.
  destruct (FindSlot_spec p minSize Hwf) as (r & p' & Hrun & Hf & _).
  pose proof (cache_filled_WF p p' Hwf Hf) as Hwf'.
  destruct (FindSlot_spec p' minSize Hwf') as (r' & p'' & Hrun' & _).
  pose proof (FindSlot_result_of_record p' p minSize Hwf' Hwf
                (cache_filled_same p p' Hf)) as Heq.
  rewrite Hrun, Hrun' in Heq. cbn in Heq. injection Heq as ->.
  by exists r, p', p''.
Qed.

(** X20.  On a well formed page whose rows are all vacant [FindSlot]
    returns 0 for every request, be it as the index of row 0 or as the
    largest size negated. *)
Theorem FindSlot_all_vacant p minSize :
  wf p = true -> all_vacant p ->
  exists p', FindSlot minSize p = Some (0, p').
Proof.
  intros Hwf%wf_WF Hvac.
  destruct (FindSlot_spec_first p minSize Hwf) as (r & p' & Hrun & _ & Hres).
  assert (r = 0) as ->; [|by exists p'].
  destruct Hres as [(Hr & (s & Hs & Hw) & Hbelow)|[Hbest|[_ ->]]].
  - destruct (decide (r = 0)) as [?|Hne]; [done|].
    rewrite Hvac in Hs by done. injection Hs as <-.
    specialize (Hbelow 0 0 ltac:(lia) (Hvac 0 ltac:(lia))). lia.
  - destruct Hbest as ((Hr & sr & Hsr & _) & Hfirst).
    destruct (decide (r = 0)) as [?|Hne]; [done|].
    rewrite Hvac in Hsr by done. injection Hsr as <-.
    specialize (Hfirst 0 0 0 ltac:(lia) (Hvac 0 ltac:(lia))
                  (Hvac r ltac:(lia))). lia.
  - unfold maxRowSize. rewrite maxSizeBelow_vacant; [done|].
    intros j Hj. apply Hvac. lia.
Qed.

(** *** Locations *)

(** X21.  On a well formed page [SlotInfoLocation] of a row leaves the
    page as it is; it returns [PackLocation 1 1] after [AllocateSlotInfo]
    on the row and 0 after [ReleaseSlotInfo] on the row. *)
Theorem SlotInfoLocation_placeholder p i :
  wf p = true -> 0 <= i < maxSlots p ->
  exists p1 p2,
    AllocateSlotInfo i p = Some (slotinfoToOffset i, p1)
    /\ SlotInfoLocation i p1 = Some (PackLocation 1 1, p1)
    /\ ReleaseSlotInfo i p = Some (slotinfoToOffset i, p2)
    /\ SlotInfoLocation i p2 = Some (0, p2).
Proof.
  intros Hwf%wf_WF Hi.
  pose proof (wf_layout p Hwf) as HL.
  destruct (AllocateSlotInfo_spec p i Hwf Hi)
    as (c1 & p1 & _ & _ & Hrun1 & Hwf1 & _ & Hl1 & _ & Hk1 & _).
  destruct (ReleaseSlotInfo_spec p i Hwf Hi)
    as (c2 & p2 & _ & _ & Hrun2 & Hwf2 & _ & Hl2 & _ & Hk2 & _).
  rewrite (location_placeholder HL) in Hl1.
  change (PackLocation 0 0 `mod` 256 ^ LOCATION_SIZE)
    with (0 `mod` 256 ^ LOCATION_SIZE) in Hl2.
  rewrite Z.mod_0_l in Hl2
    by (apply Z.pow_nonzero; pose proof (layout_ok_spec HL); lia).
  assert (maxSlots p1 = maxSlots p) as Hm1 by apply Hk1.
  assert (maxSlots p2 = maxSlots p) as Hm2 by apply Hk2.
  destruct (SlotInfoLocation_spec p1 i Hwf1 ltac:(lia)) as (l1 & Hd1 & Hs1).
  destruct (SlotInfoLocation_spec p2 i Hwf2 ltac:(lia)) as (l2 & Hd2 & Hs2).
  assert (l1 = 65537) as -> by congruence.
  assert (l2 = 0) as -> by congruence.
  by exists p1, p2.
Qed.

End MoreProperties.

(** ** Runs on the sample pages *)

Section Runs.

Local Existing Instance sample_layout.

Local Open Scope page_scope.

(** Closes a goal on concrete pages by evaluation. *)
Ltac evaluate :=
  vm_compute; repeat split; first [reflexivity | discriminate].

Example sample_record_page :
  NewFreePhysicalSlotPage sample_record = Some blank_page.
Proof. evaluate. Qed.

Example sample_pages_wf :
  wf blank_page = true /\ wf scenario_page = true
  /\ wf large_slot_page = true /\ wf drifted_page = true.
Proof. evaluate. Qed.

(** The two searches of the spec on rows of sizes 0, 500, 50 and 200. *)
Example scenario_FindSlot_40 : fst <$> FindSlot 40 scenario_page = Some 2.
Proof. evaluate. Qed.

Example scenario_FindSlot_600 :
  fst <$> FindSlot 600 scenario_page = Some (-500).
Proof. evaluate. Qed.

(** The waste of a vacant row wraps around into the optimal margin. *)
Example blank_page_FindSlot_wrap :
  fst <$> FindSlot 4294967295 blank_page = Some 0
  /\ wasteOf 4294967295 0 = 1.
Proof. evaluate. Qed.

Lemma blank_page_vacant j :
  0 <= j < maxSlots blank_page -> diskSize blank_page j = Some 0.
Proof.
  apply maxRowSize_zero; [apply wf_WF|]; evaluate.
Qed.

Lemma scenario_page_sizes j s :
  0 <= j < maxSlots scenario_page -> diskSize scenario_page j = Some s ->
  s <= 500.
Proof.
  intros Hj Hs.
  assert (maxSlots scenario_page = 339) as Hm by evaluate.
  assert (maxSizeBelow scenario_page 339 = 500) as <- by evaluate.
  apply (maxSizeBelow_bound scenario_page 339 j s); [lia | done].
Qed.

(** *** C1 *)

(** C1, counterexample.  On the blank page, whose rows are all vacant,
    [FindSlot 10] returns 0, and row 0 has size 0. *)
Lemma FindSlot_fits_refuted :
  wf blank_page = true /\ ~ FindSlot_fits blank_page 10.
Proof.
  split; [evaluate|]. intros H.
  assert (fst <$> FindSlot 10 blank_page = Some 0) as Hrun by evaluate.
  assert (diskSize blank_page 0 = Some 0) as Hsize by evaluate.
  destruct (FindSlot 10 blank_page) as [[r p']|] eqn:E; [|done].
  cbn in Hrun. injection Hrun as ->.
  destruct (H 0 p' E ltac:(lia)) as (s & Hs & Hle).
  assert (s = 0) as -> by congruence. lia.
Qed.

Lemma FindSlot_fit_or_all_vacant_witness :
  wf scenario_page = true
  /\ exists r p',
      FindSlot 40 scenario_page = Some (r, p')
      /\ (0 <= r ->
          (r < maxSlots scenario_page
           /\ exists s, diskSize scenario_page r = Some s /\ 40 <= s)
          \/ (r = 0 /\ forall j, 0 <= j < maxSlots scenario_page ->
                                 diskSize scenario_page j = Some 0)).
Proof.
  split; [evaluate|].
  apply (FindSlot_fit_or_all_vacant scenario_page 40); evaluate.
Defined.

(** *** C2 *)

(** C2, the code at the failing input.  Row 1 of the page has size
    4294967295, which fits the request 4294967295 without waste, and the
    vacant row 0 has size 0; [FindSlot 4294967295] returns row 0, whose
    waste wraps around to 1. *)
Theorem FindSlot_takes_undersized_row :
  wf large_slot_page = true
  /\ diskSize large_slot_page 0 = Some 0
  /\ diskSize large_slot_page 1 = Some 4294967295
  /\ fst <$> FindSlot 4294967295 large_slot_page = Some 0
  /\ ~ FindSlot_first_fit large_slot_page 4294967295.
Proof.
  assert (fst <$> FindSlot 4294967295 large_slot_page = Some 0) as Hrun
    by evaluate.
  assert (diskSize large_slot_page 0 = Some 0) as Hsize by evaluate.
  split; [evaluate|]. split; [exact Hsize|]. split; [evaluate|].
  split; [exact Hrun|].
  intros H. destruct H as (r & p' & E & _ & s & Hs & Hle & _).
  - exists 1. split; [evaluate|]. exists 4294967295. evaluate.
  - rewrite E in Hrun. cbn in Hrun. injection Hrun as ->.
    assert (s = 0) as -> by congruence. lia.
Qed.

(** *** C3 *)

(** C3, counterexample.  No row of the blank page fits the request 10,
    and [FindSlot 10] returns 0, which is not negative. *)
Lemma FindSlot_exhausted_refuted :
  wf blank_page = true /\ ~ FindSlot_exhausted blank_page 10.
Proof.
  split; [evaluate|]. intros H.
  assert (fst <$> FindSlot 10 blank_page = Some 0) as Hrun by evaluate.
  destruct H as (r & p' & E & Hneg & _).
  - intros j Hj (s & Hs & Hle & _).
    rewrite (blank_page_vacant j Hj) in Hs. injection Hs as <-. lia.
  - rewrite E in Hrun. cbn in Hrun. injection Hrun as ->. lia.
Qed.

Lemma FindSlot_exhausted_result_witness :
  wf scenario_page = true
  /\ exists p',
      FindSlot 600 scenario_page = Some (- maxRowSize scenario_page, p')
      /\ - maxRowSize scenario_page <= 0
      /\ (- maxRowSize scenario_page < 0
          <-> exists j, 0 <= j < maxSlots scenario_page
                        /\ rowInUse scenario_page j = true).
Proof.
  split; [evaluate|].
  apply (FindSlot_exhausted_result scenario_page 600); [evaluate .. |].
  intros j Hj (s & Hs & Hle & _).
  pose proof (scenario_page_sizes j s Hj Hs). lia.
Defined.

(** *** C4 *)

Lemma SetFreeSlotSize_FreeSlotSize_witness :
  wf scenario_page = true
  /\ exists p1 p2 p3,
      SetFreeSlotSize (slotinfoToOffset 2) 0 scenario_page = Some (tt, p1)
      /\ run_ops [OpFreeSlotSize (slotinfoToOffset 2); OpFindSlot 40;
                  OpAllocateSlotInfo 0] p1 = Some p2
      /\ FreeSlotSize (slotinfoToOffset 2) p2 = Some (0, p3).
Proof.
  split; [evaluate|].
  apply (SetFreeSlotSize_FreeSlotSize scenario_page 2 0); evaluate.
Defined.

(** *** C5 *)

(** C5, counterexample.  On the page whose row count a release of a
    vacant row left at 65535, row 0 is vacant and [AllocateSlotInfo 0]
    takes the row count to 0, not to one more than 65535. *)
Lemma AllocateSlotInfo_count_wraps :
  wf drifted_page = true /\ diskSize drifted_page 0 = Some 0
  /\ ~ AllocateSlotInfo_claimed drifted_page 0.
Proof.
  split; [evaluate|]. split; [evaluate|]. intros H.
  assert (diskCount drifted_page = Some 65535) as Hbefore by evaluate.
  assert (diskCount <$> after (AllocateSlotInfo 0) drifted_page
          = Some (Some 0)) as Hafter by evaluate.
  destruct H as (c & p' & Hc & Hrun & Hc' & _); [evaluate|].
  apply FreeSlotCount_diskCount in Hc as [Hc _].
  apply FreeSlotCount_diskCount in Hc' as [Hc' _].
  unfold after in Hafter. rewrite Hrun in Hafter. cbn in Hafter.
  assert (c = 65535) as -> by congruence.
  rewrite Hc' in Hafter. discriminate Hafter.
Qed.


(** Without the invariant of the row count the step of
    [AllocateSlotInfo] wraps around as well: on the page whose count a
    release of a vacant row left at 65535, the count after a claim is 0. *)
Example drifted_page_AllocateSlotInfo :
  diskCount drifted_page = Some 65535
  /\ count_ok drifted_page = false
  /\ diskCount <$> after (AllocateSlotInfo 0) drifted_page = Some (Some 0).
Proof. evaluate. Qed.

(** *** C6 *)

Lemma AllocateSlotInfo_ReleaseSlotInfo_witness :
  wf scenario_page = true /\ diskSize scenario_page 0 = Some 0
  /\ exists c p1 p2,
      FreeSlotCount scenario_page = Some (c, scenario_page)
      /\ AllocateSlotInfo 0 scenario_page = Some (slotinfoToOffset 0, p1)
      /\ ReleaseSlotInfo 0 p1 = Some (slotinfoToOffset 0, p2)
      /\ FreeSlotCount p2 = Some (c, p2)
      /\ diskSize p2 0 = Some 0
      /\ fst <$> FreeSlotSize (slotinfoToOffset 0) p2 = Some 0.
Proof.
  split; [evaluate|]. split; [evaluate|].
  apply (AllocateSlotInfo_ReleaseSlotInfo scenario_page 0); evaluate.
Defined.

(** *** C7 *)

Lemma FirstFreeSlotInfo_first_vacant_witness :
  wf scenario_page = true
  /\ exists r p',
      FirstFreeSlotInfo scenario_page = Some (r, p')
      /\ ((0 <= r < maxSlots scenario_page
           /\ diskSize scenario_page r = Some 0
           /\ forall j, 0 <= j < r -> rowInUse scenario_page j = true)
          \/ (r = -1
              /\ forall j, 0 <= j < maxSlots scenario_page ->
                           rowInUse scenario_page j = true)).
Proof.
  split; [evaluate|].
  apply (FirstFreeSlotInfo_first_vacant scenario_page); evaluate.
Defined.

(** *** C8 *)

(** C8, counterexample.  [SetFreeSlotSize] of 5 on the vacant row 0 of
    the blank page keeps the documented preconditions of
    [AllocateSlotInfo] and [ReleaseSlotInfo]; it leaves a row in use under
    a row count of 0. *)
Lemma SetFreeSlotSize_breaks_row_count :
  wf blank_page = true /\ count_ok blank_page = true
  /\ ~ count_kept claim_release_pre blank_page
         [OpSetFreeSlotSize (slotinfoToOffset 0) 5].
Proof.
  split; [evaluate|]. split; [evaluate|]. intros H.
  assert (count_ok <$> run_ops [OpSetFreeSlotSize (slotinfoToOffset 0) 5]
                         blank_page = Some false) as Hrun by evaluate.
  destruct H as (p' & E & Hc); [evaluate | evaluate | evaluate |].
  rewrite E in Hrun. cbn in Hrun. congruence.
Qed.

Lemma row_count_kept_witness :
  wf blank_page = true /\ count_ok blank_page = true
  /\ exists p',
      run_ops [OpFirstFreeSlotInfo; OpAllocateSlotInfo 0;
               OpSetFreeSlotSize (slotinfoToOffset 0) 500;
               OpFindSlot 400; OpReleaseSlotInfo 0] blank_page = Some p'
      /\ wf p' = true /\ count_ok p' = true
      /\ (forallb (fun o => negb (is_claim_release o))
            [OpFirstFreeSlotInfo; OpAllocateSlotInfo 0;
             OpSetFreeSlotSize (slotinfoToOffset 0) 500;
             OpFindSlot 400; OpReleaseSlotInfo 0] = true ->
          diskCount p' = diskCount blank_page).
Proof.
  split; [evaluate|]. split; [evaluate|].
  apply (row_count_kept blank_page); evaluate.
Defined.

(** *** C9 *)

Lemma ReleaseSlotInfo_wraps_count_witness :
  wf blank_page = true
  /\ FreeSlotCount blank_page = Some (0, blank_page)
  /\ exists p',
      ReleaseSlotInfo 7 blank_page = Some (slotinfoToOffset 7, p')
      /\ FreeSlotCount p' = Some (65535, p').
Proof.
  split; [evaluate|]. split; [evaluate|].
  apply (ReleaseSlotInfo_wraps_count blank_page 7); evaluate.
Defined.

(** *** C10 *)

Lemma FindSlot_frame_witness :
  wf scenario_page = true
  /\ exists r p',
      FindSlot 40 scenario_page = Some (r, p')
      /\ Data p' = Data scenario_page
      /\ diskCount p' = diskCount scenario_page
      /\ (forall j, diskSize p' j = diskSize scenario_page j)
      /\ (forall j, diskLocation p' j = diskLocation scenario_page j)
      /\ cache_filled scenario_page p'.
Proof.
  split; [evaluate|].
  apply (FindSlot_frame scenario_page 40); evaluate.
Defined.

End Runs.

(** ** Further runs on the sample pages *)

Section MoreRuns.

Local Existing Instance sample_layout.

Local Open Scope page_scope.

(** Closes a goal on concrete pages by evaluation. *)
Ltac run :=
  vm_compute; repeat split; first [reflexivity | discriminate].

Lemma slotinfo_offset_round_trip_witness :
  offsetToSlotinfo (slotinfoToOffset 338) = 338.
Proof. apply (slotinfo_offset_round_trip 338); run. Defined.

Lemma rows_apart_witness :
  wf scenario_page = true
  /\ OFFSET_DATA <= slotinfoToOffset 1
  /\ slotinfoToOffset 1 + SLOT_INFO_SIZE <= slotinfoToOffset 2
  /\ slotinfoToOffset 2 + SLOT_INFO_SIZE
     <= Z.of_nat (length (Data scenario_page)).
Proof.
  split; [run|]. apply (rows_apart scenario_page 1 2); run.
Defined.

Lemma NewFreePhysicalSlotPage_page_witness :
  exists p,
    NewFreePhysicalSlotPage sample_record = Some p
    /\ wf p = true /\ Data p = sample_record
    /\ maxSlots p
       = (Z.of_nat (length sample_record) - OFFSET_DATA) / SLOT_INFO_SIZE
    /\ maxAcceptableWaste p = Z.of_nat (length sample_record) / 4
    /\ sizeCache p = replicate (Z.to_nat (maxSlots p)) 0.
Proof. apply (NewFreePhysicalSlotPage_page sample_record); run. Defined.

Lemma NewFreePhysicalSlotPage_panics_witness :
  Rec.ReadInt16 zero_record 0 = Some 0
  /\ NewFreePhysicalSlotPage zero_record = None.
Proof.
  split; [run|].
  apply (NewFreePhysicalSlotPage_panics zero_record); [run|]. left. run.
Defined.

Lemma run_ops_valid_witness :
  wf scenario_page = true
  /\ exists p',
      run_ops [OpReleaseSlotInfo 0; OpAllocateSlotInfo 1;
               OpSetFreeSlotSize (slotinfoToOffset 5) 0;
               OpFindSlot 4294967295; OpFirstFreeSlotInfo;
               OpSlotInfoLocation 338] scenario_page = Some p'
      /\ wf p' = true
      /\ maxSlots p' = maxSlots scenario_page
      /\ maxAcceptableWaste p' = maxAcceptableWaste scenario_page
      /\ length (Data p') = length (Data scenario_page).
Proof.
  split; [run|]. apply (run_ops_valid scenario_page); run.
Defined.

Lemma FreeSlotSize_stable_witness :
  wf scenario_page = true
  /\ exists s p1,
      diskSize scenario_page 1 = Some s
      /\ FreeSlotSize (slotinfoToOffset 1) scenario_page = Some (s, p1)
      /\ Data p1 = Data scenario_page
      /\ FreeSlotSize (slotinfoToOffset 1) p1 = Some (s, p1).
Proof.
  split; [run|]. apply (FreeSlotSize_stable scenario_page 1); run.
Defined.


Lemma SetFreeSlotSize_frame_witness :
  wf scenario_page = true
  /\ exists p',
      SetFreeSlotSize (slotinfoToOffset 2) 60 scenario_page = Some (tt, p')
      /\ wf p' = true
      /\ diskSize p' 2 = Some 60
      /\ (forall j, 0 <= j < maxSlots scenario_page -> j <> 2 ->
                    diskSize p' j = diskSize scenario_page j)
      /\ (forall j, 0 <= j < maxSlots scenario_page ->
                    diskLocation p' j = diskLocation scenario_page j)
      /\ diskCount p' = diskCount scenario_page.
Proof.
  split; [run|]. apply (SetFreeSlotSize_frame scenario_page 2 60); run.
Defined.

Lemma claim_release_frame_witness :
  wf scenario_page = true
  /\ exists p1 p2,
      AllocateSlotInfo 2 scenario_page = Some (slotinfoToOffset 2, p1)
      /\ ReleaseSlotInfo 2 scenario_page = Some (slotinfoToOffset 2, p2)
      /\ wf p1 = true /\ wf p2 = true
      /\ forall j, 0 <= j < maxSlots scenario_page -> j <> 2 ->
           (diskSize p1 j = diskSize scenario_page j
            /\ diskLocation p1 j = diskLocation scenario_page j)
           /\ (diskSize p2 j = diskSize scenario_page j
               /\ diskLocation p2 j = diskLocation scenario_page j).
Proof.
  split; [run|]. apply (claim_release_frame scenario_page 2); run.
Defined.

Lemma AllocateSlotInfo_row_in_use_witness :
  wf scenario_page = true /\ rowInUse scenario_page 1 = true
  /\ exists p',
      AllocateSlotInfo 1 scenario_page = Some (slotinfoToOffset 1, p')
      /\ diskSize p' 1 = Some 1
      /\ usedRows p' = usedRows scenario_page
      /\ diskCount p' = Some (usedRows p' + 1)
      /\ count_ok p' = false.
Proof.
  split; [run|]. split; [run|].
  apply (AllocateSlotInfo_row_in_use scenario_page 1); run.
Defined.

Lemma ReleaseSlotInfo_row_vacant_witness :
  wf scenario_page = true /\ rowInUse scenario_page 0 = false
  /\ exists p',
      ReleaseSlotInfo 0 scenario_page = Some (slotinfoToOffset 0, p')
      /\ (forall j, 0 <= j < maxSlots scenario_page ->
                    diskSize p' j = diskSize scenario_page j)
      /\ usedRows p' = usedRows scenario_page
      /\ diskCount p' = Some (u16 (usedRows p' - 1))
      /\ count_ok p' = false.
Proof.
  split; [run|]. split; [run|].
  apply (ReleaseSlotInfo_row_vacant scenario_page 0); run.
Defined.

Lemma FirstFreeSlotInfo_full_witness :
  wf scenario_page = true /\ count_ok scenario_page = true
  /\ exists r p' c,
      FirstFreeSlotInfo scenario_page = Some (r, p')
      /\ FreeSlotCount scenario_page = Some (c, scenario_page)
      /\ 0 <= c <= maxSlots scenario_page
      /\ (r = -1 <-> c = maxSlots scenario_page).
Proof.
  split; [run|]. split; [run|].
  apply (FirstFreeSlotInfo_full scenario_page); run.
Defined.

Lemma FirstFreeSlotInfo_then_AllocateSlotInfo_witness :
  wf scenario_page = true /\ count_ok scenario_page = true
  /\ exists r p1 p2 r' p3,
      FirstFreeSlotInfo scenario_page = Some (r, p1) /\ 0 <= r <= 4
      /\ AllocateSlotInfo r p1 = Some (slotinfoToOffset r, p2)
      /\ wf p2 = true /\ count_ok p2 = true
      /\ FirstFreeSlotInfo p2 = Some (r', p3)
      /\ (r' = -1 \/ r < r').
Proof.
  split; [run|]. split; [run|].
  apply (FirstFreeSlotInfo_then_AllocateSlotInfo scenario_page 4); run.
Defined.

Lemma ReleaseSlotInfo_frees_row_witness :
  wf scenario_page = true
  /\ exists p1 p2 r p3,
      ReleaseSlotInfo 2 scenario_page = Some (slotinfoToOffset 2, p1)
      /\ FreeSlotSize (slotinfoToOffset 2) p1 = Some (0, p2)
      /\ FirstFreeSlotInfo p1 = Some (r, p3)
      /\ 0 <= r <= 2.
Proof.
  split; [run|]. apply (ReleaseSlotInfo_frees_row scenario_page 2); run.
Defined.

Lemma FindSlot_result_range_witness :
  wf scenario_page = true
  /\ exists r p',
      FindSlot 600 scenario_page = Some (r, p')
      /\ (0 <= r < maxSlots scenario_page \/ - 4294967295 <= r <= 0).
Proof.
  split; [run|]. apply (FindSlot_result_range scenario_page 600); run.
Defined.

Lemma scenario_page_no_optimal_row j :
  0 <= j < maxSlots scenario_page -> ~ optimal_row scenario_page 300 j.
Proof.
  intros Hj (s & Hs & Hle & Hw).
  assert (negb ((300 <=? s) && (s - 300 <? 128)) = true) as Hcheck.
  { apply (rows_checked scenario_page
             (fun s => negb ((300 <=? s) && (s - 300 <? 128)))) with j;
      [run | exact Hj | exact Hs]. }
  apply negb_true_iff, andb_false_iff in Hcheck.
  unfold OPTIMAL_WASTE_MARGIN in Hw.
  destruct Hcheck as [H|H]; [apply Z.leb_gt in H | apply Z.ltb_ge in H]; lia.
Qed.

Lemma FindSlot_best_fit_witness :
  wf scenario_page = true
  /\ exists r p' sr,
      FindSlot 300 scenario_page = Some (r, p')
      /\ 0 <= r < maxSlots scenario_page
      /\ diskSize scenario_page r = Some sr /\ 300 <= sr
      /\ sr - 300 < maxAcceptableWaste scenario_page
      /\ sr - 300 < MAX_AVAILABLE_SIZE_DIFFERENCE
      /\ (forall j s, 0 <= j < maxSlots scenario_page ->
                      diskSize scenario_page j = Some s -> 300 <= s -> sr <= s)
      /\ (forall j s, 0 <= j < r ->
                      diskSize scenario_page j = Some s -> 300 <= s -> sr < s).
Proof.
  split; [run|].
  apply (FindSlot_best_fit scenario_page 300); [run | run | run | run | |].
  - exact scenario_page_no_optimal_row.
  - exists 1. split; [run|]. exists 500. run.
Defined.

Lemma FindSlot_wrapped_waste_witness :
  wf blank_page = true
  /\ exists p', FindSlot 4294967295 blank_page = Some (0, p')
                /\ 0 < 4294967295.
Proof.
  split; [run|]. apply (FindSlot_wrapped_waste blank_page 4294967295 0); run.
Defined.

Lemma FindSlot_same_record_witness :
  wf scenario_page = true /\ wf cold_scenario_page = true
  /\ sizeCache scenario_page <> sizeCache cold_scenario_page
  /\ fst <$> FindSlot 40 scenario_page
     = fst <$> FindSlot 40 cold_scenario_page.
Proof.
  split; [run|]. split; [run|]. split; [run|].
  apply (FindSlot_same_record scenario_page cold_scenario_page 40); run.
Defined.

Lemma FindSlot_again_witness :
  wf scenario_page = true
  /\ exists r p' p'',
      FindSlot 300 scenario_page = Some (r, p')
      /\ FindSlot 300 p' = Some (r, p'').
Proof.
  split; [run|]. apply (FindSlot_again scenario_page 300); run.
Defined.

Lemma FindSlot_all_vacant_witness :
  wf blank_page = true
  /\ exists p', FindSlot 500 blank_page = Some (0, p').
Proof.
  split; [run|].
  apply (FindSlot_all_vacant blank_page 500); [run|].
  exact blank_page_vacant.
Defined.

Lemma SlotInfoLocation_placeholder_witness :
  wf scenario_page = true
  /\ exists p1 p2,
      AllocateSlotInfo 1 scenario_page = Some (slotinfoToOffset 1, p1)
      /\ SlotInfoLocation 1 p1 = Some (PackLocation 1 1, p1)
      /\ ReleaseSlotInfo 1 scenario_page = Some (slotinfoToOffset 1, p2)
      /\ SlotInfoLocation 1 p2 = Some (0, p2).
Proof.
  split; [run|]. apply (SlotInfoLocation_placeholder scenario_page 1); run.
Defined.

End MoreRuns.
